(** * MySQL Utilities 1.6.4: replication setup and transaction skipping

    A shallow embedding of

    - [mysql/utilities/command/setup_rpl.py]
      ([setup_replication], [start_ms_replication]) and
    - [scripts/mysqlslavetrx.py] (the [__main__] block of the
      transaction-skipping utility),

    together with the properties their specification states about them.

    The two files are Python 2 programs that print, raise exceptions and
    call into [mysql.utilities.common] and [mysql.utilities.command.rpl_admin].
    They are embedded in a small monad of our own (an event trace, an
    explicit state and a result that is either a value or a raised
    exception).  The classes and functions they call are not part of the
    two files; the embedding takes them as parameters of a section, and
    where a property needs their behaviour they are modelled from the
    specification, each such definition saying so. *)

From stdpp Require Import gmap strings list fin_maps pretty.
From Stdlib Require Import ZArith Lia Ascii.

Open Scope string_scope.
Open Scope Z_scope.
Open Scope list_scope.

(** ** Python values, exceptions and the execution monad *)

Module Py.

(** The values found in the [options] dictionaries. *)
Inductive value :=
| VNone
| VBool (b : bool)
| VInt (n : Z)
| VStr (s : string).

#[global] Instance value_eq_dec : EqDecision value.
Proof. solve_decision. Defined.

(** [v > n] for an integer literal [n], with CPython 2's ordering of
    mixed types: [None] is below every number, a boolean is the number
    0 or 1, and a string is above every number. *)
Definition gt_int (v : value) (n : Z) : bool :=
  match v with
  | VNone => false
  | VBool b => bool_decide (n < (if b then 1 else 0))
  | VInt k => bool_decide (n < k)
  | VStr _ => true
  end.

(** [v == s] for a string literal [s]. *)
Definition eq_str (v : value) (s : string) : bool :=
  match v with
  | VStr t => bool_decide (t = s)
  | _ => false
  end.

(** Truth value of an optional string ([None] and [""] are false). *)
Definition truthy (o : option string) : bool :=
  match o with
  | Some s => negb (bool_decide (s = ""))
  | None => false
  end.

(** The exceptions that occur in the two files. *)
Inductive exn :=
| UtilError (errmsg : string)
| UtilRplError (errmsg : string)
| GtidFormatError (gtid_set : string)
| IndexError
| KeyboardInterrupt
| SystemExit (code : Z).

#[global] Instance exn_eq_dec : EqDecision exn.
Proof. solve_decision. Defined.

Inductive result (A : Type) :=
| Return (a : A)
| Raise (e : exn).
Arguments Return {A} a.
Arguments Raise {A} e.

Definition raised {A} (r : result A) : bool :=
  match r with Return _ => false | Raise _ => true end.

Section Monad.
Context {Ev St : Type}.

(** A computation reads the state and gives the events it emitted
    (oldest first), the new state and its result.  A raised exception
    keeps the state reached so far, as in Python. *)
Definition M (A : Type) : Type := St -> list Ev * St * result A.

Definition ret {A} (a : A) : M A := fun s => ([], s, Return a).

Definition raise {A} (e : exn) : M A := fun s => ([], s, Raise e).

Definition bind {A B} (m : M A) (k : A -> M B) : M B :=
  fun s =>
    match m s with
    | (t, s', Return a) =>
        match k a s' with
        | (t', s'', r) => (t ++ t', s'', r)
        end
    | (t, s', Raise e) => (t, s', Raise e)
    end.

Definition emit (e : Ev) : M unit := fun s => ([e], s, Return tt).

Definition get : M St := fun s => ([], s, Return s).

Definition put (s : St) : M unit := fun _ => ([], s, Return tt).

(** [try: m  except E: h], where [handles] tells the exceptions the
    clause catches. *)
Definition try_except {A} (m : M A) (handles : exn -> bool)
    (h : exn -> M A) : M A :=
  fun s =>
    match m s with
    | (t, s', Raise e) =>
        if handles e then
          match h e s' with
          | (t', s'', r) => (t ++ t', s'', r)
          end
        else (t, s', Raise e)
    | out => out
    end.

(** [if c: m] *)
Definition when (c : bool) (m : M unit) : M unit :=
  if c then m else ret tt.

(** [for x in l: body x] *)
Fixpoint for_each {A} (l : list A) (body : A -> M unit) : M unit :=
  match l with
  | [] => ret tt
  | x :: l' => bind (body x) (fun _ => for_each l' body)
  end.

(** [l[i]] *)
Definition index {A} (l : list A) (i : nat) : M A :=
  match l !! i with
  | Some x => ret x
  | None => raise IndexError
  end.

Definition trace {A} (out : list Ev * St * result A) : list Ev := out.1.1.
Definition final {A} (out : list Ev * St * result A) : St := out.1.2.
Definition outcome {A} (out : list Ev * St * result A) : result A := out.2.
End Monad.

Arguments M : clear implicits.

End Py.

Import Py.

Declare Scope py_scope.
Delimit Scope py_scope with py.
Notation "x <- m ;; k" := (bind m (fun x => k))
  (at level 100, m at next level, right associativity) : py_scope.
Notation "m ;;; k" := (bind m (fun _ => k))
  (at level 100, right associativity) : py_scope.
Open Scope py_scope.

(** Laws of the monad used to run the embedded programs symbolically. *)

Section MonadLaws.
Context {Ev St : Type}.
Implicit Types (s : St) (t : list Ev).

(** The output [out] with the events [t] in front of its trace. *)
Definition after {A} (t : list Ev) (out : list Ev * St * result A)
    : list Ev * St * result A :=
  (t ++ trace out, final out, outcome out).

Lemma after_nil {A} (out : list Ev * St * result A) : after [] out = out.
Proof. by destruct out as [[t s] r]. Qed.

Lemma after_after {A} t t' (out : list Ev * St * result A) :
  after t (after t' out) = after (t ++ t') out.
Proof. destruct out as [[t0 s] r]. unfold after, trace, final, outcome; simpl. by rewrite app_assoc. Qed.

Lemma bind_Return {A B} (m : M Ev St A) (k : A -> M Ev St B) s t s' a :
  m s = (t, s', Return a) -> bind m k s = after t (k a s').
Proof. intros H. unfold bind. rewrite H. by destruct (k a s') as [[t' s''] r]. Qed.

Lemma bind_Raise {A B} (m : M Ev St A) (k : A -> M Ev St B) s t s' e :
  m s = (t, s', Raise e) -> bind m k s = (t, s', Raise e).
Proof. intros H. unfold bind. by rewrite H. Qed.

Lemma bind_emit {B} (e : Ev) (k : unit -> M Ev St B) s :
  bind (emit e) k s = after [e] (k tt s).
Proof. by apply bind_Return. Qed.

Lemma bind_ret {A B} (a : A) (k : A -> M Ev St B) s :
  bind (ret a) k s = k a s.
Proof. erewrite bind_Return by reflexivity. apply after_nil. Qed.

Lemma bind_raise {A B} (e : exn) (k : A -> M Ev St B) s :
  bind (raise e) k s = ([], s, Raise e).
Proof. by apply bind_Raise. Qed.

Lemma bind_bind {A B C} (m : M Ev St A) (k : A -> M Ev St B)
    (h : B -> M Ev St C) s :
  bind (bind m k) h s = bind m (fun a => bind (k a) h) s.
Proof.
  unfold bind. destruct (m s) as [[t s'] [a|e]]; [|done].
  destruct (k a s') as [[t' s''] [b|e]]; [|done].
  destruct (h b s'') as [[t'' s'''] r]. by rewrite app_assoc.
Qed.

Lemma bind_get {B} (k : St -> M Ev St B) s : bind get k s = k s s.
Proof. erewrite bind_Return by reflexivity. apply after_nil. Qed.

Lemma bind_put {B} (s' : St) (k : unit -> M Ev St B) s :
  bind (put s') k s = k tt s'.
Proof. erewrite bind_Return by reflexivity. apply after_nil. Qed.

(** A loop whose body only emits one event per element. *)
Lemma for_each_emit {A} (f : A -> Ev) (l : list A) s :
  for_each l (fun x => emit (f x)) s = (f <$> l, s, Return tt).
Proof.
  induction l as [|x l IH]; [done|].
  simpl. rewrite bind_emit, IH. done.
Qed.

Lemma bind_for_each_emit {A B} (f : A -> Ev) (l : list A)
    (k : unit -> M Ev St B) s :
  bind (for_each l (fun x => emit (f x))) k s = after (f <$> l) (k tt s).
Proof. apply bind_Return, for_each_emit. Qed.

(** Computations that leave the state as it is and emit no event of
    the kind [P]. *)
Definition preserved {A} (P : Ev -> bool) (m : M Ev St A) s : Prop :=
  final (m s) = s ∧ existsb P (trace (m s)) = false.

Lemma preserved_ret {A} P (a : A) s : preserved P (ret a) s.
Proof. done. Qed.

Lemma preserved_raise {A} P e s : preserved P (@raise Ev St A e) s.
Proof. done. Qed.

Lemma preserved_emit P e s : P e = false -> preserved P (emit e) s.
Proof. intros He. split; [done|]. simpl. by rewrite He. Qed.

Lemma preserved_bind {A B} P (m : M Ev St A) (k : A -> M Ev St B) s :
  preserved P m s -> (∀ a, preserved P (k a) s) -> preserved P (bind m k) s.
Proof.
  unfold preserved, bind, final, trace. intros [Hs Ht] Hk.
  destruct (m s) as [[t s'] [a|e]]; simpl in *; [|done]. subst s'.
  specialize (Hk a). destruct (k a s) as [[t' s''] r]; simpl in *.
  destruct Hk as [-> Ht']. by rewrite existsb_app, Ht, Ht'.
Qed.

Lemma preserved_try_except {A} P (m : M Ev St A) handles h s :
  preserved P m s -> (∀ e, preserved P (h e) s) ->
  preserved P (try_except m handles h) s.
Proof.
  unfold preserved, try_except, final, trace. intros [Hs Ht] Hh.
  destruct (m s) as [[t s'] [a|e]]; simpl in *; [done|]. subst s'.
  destruct (handles e); [|done].
  specialize (Hh e). destruct (h e s) as [[t' s''] r]; simpl in *.
  destruct Hh as [-> Ht']. by rewrite existsb_app, Ht, Ht'.
Qed.

Lemma bind_when_emits {B} (c : bool) (m : M Ev St unit) t
    (k : unit -> M Ev St B) s :
  m s = (t, s, Return tt) ->
  bind (when c m) k s = after (if c then t else []) (k tt s).
Proof.
  intros H. destruct c; simpl.
  - by apply bind_Return.
  - rewrite bind_ret. by rewrite after_nil.
Qed.
End MonadLaws.

(** ** Reading numbers and versions out of strings *)

Module Text.

(** The pieces of [s] between the occurrences of [sep]. *)
Fixpoint split_on (sep : ascii) (s : string) : list string :=
  match s with
  | EmptyString => [EmptyString]
  | String c s' =>
      if Ascii.eqb c sep then EmptyString :: split_on sep s'
      else match split_on sep s' with
           | [] => [String c EmptyString]
           | piece :: pieces => String c piece :: pieces
           end
  end.

Definition digit (c : ascii) : option Z :=
  let n := Z.of_nat (nat_of_ascii c) in
  if bool_decide (48 ≤ n ∧ n ≤ 57) then Some (n - 48) else None.

Fixpoint number_from (acc : Z) (s : string) : option Z :=
  match s with
  | EmptyString => Some acc
  | String c s' => d ← digit c; number_from (10 * acc + d) s'
  end.

Definition number (s : string) : option Z :=
  if bool_decide (s = "") then None else number_from 0 s.

(** A version such as ["5.6.21"]: its numbers. *)
Definition parse_version (s : string) : option (list Z) :=
  mapM number (split_on "." s).

(** Is the version [actual] at or above the version [required]?  The
    numbers are compared from the left; numbers missing at the end of
    [actual] count as 0. *)
Fixpoint version_leb (required actual : list Z) : bool :=
  match required, actual with
  | [], _ => true
  | r :: required', [] =>
      bool_decide (r ≤ 0) && version_leb required' []
  | r :: required', a :: actual' =>
      bool_decide (r < a)
      || (bool_decide (r = a) && version_leb required' actual')
  end.

End Text.

(** ** [mysql/utilities/command/setup_rpl.py] *)

Module SetupRpl.
Import Text.

(** A connected server, with the attributes the specification's data
    model gives a [ServerEndpoint].  [rpl_running n] tells whether
    replication is found running on this server after its [n]-th start
    attempt. *)
Record Server := {
  role : string;
  address : string;
  server_id : Z;
  server_uuid : string;
  version : string;
  innodb_version : string;
  innodb_page_size : Z;
  engines : list string;
  engines_in_use : list string;
  log_bin : bool;
  rpl_running : nat -> bool;
}.

(** [server.get_server_id()] and [server.get_server_uuid()]. *)
Definition get_server_id (srv : Server) : Z := server_id srv.
Definition get_server_uuid (srv : Server) : string := server_uuid srv.

(** An instance of the class [Replication]: what each method called by
    [setup_replication] returns.  The check methods return their list
    of findings. *)
Record Replication := {
  check_server_ids : list string;
  check_server_uuids : list string;
  check_innodb_compatibility : gmap string value -> list string;
  check_storage_engines : gmap string value -> list string;
  check_main_binlog : list string;
  setup : string -> Z -> bool;
}.

Inductive check :=
| ServerIds
| ServerUuids
| InnodbCompatibility
| StorageEngines
| MainBinlog.

#[global] Instance check_eq_dec : EqDecision check.
Proof. solve_decision. Defined.

(** What [setup_replication] does to the outside: the lines it prints
    and the calls it makes, a check call with the findings returned. *)
Inductive event :=
| Print (line : string)
| Connect (main_vals subordinate_vals : string)
    (conn_options : gmap string value)
| Checked (c : check) (findings : list string)
| Setup (rpl_user : string) (num_tries : Z)
| Test (db : string) (num_tries : Z).

#[global] Instance event_eq_dec : EqDecision event.
Proof. solve_decision. Defined.

Abbreviation Run := (M event unit).

Definition print (line : string) : Run unit := emit (Print line).

(** The dictionary literal [conn_options]. *)
Definition conn_options : gmap string value :=
  <["src_name" := VStr "main"]>
    (<["dest_name" := VStr "subordinate"]>
      (<["version" := VStr "5.0.0"]>
        (<["unique" := VBool true]> ∅))).

(** [rpl_options = options.copy(); rpl_options['verbosity'] = verbosity > 0] *)
Definition rpl_options_of (options : gmap string value) : gmap string value :=
  <["verbosity" := VBool (gt_int (default (VInt 0) (options !! "verbosity")) 0)]>
    options.

Section Code.
(** [mysql.utilities.common.server.connect_servers]: the list of
    connected servers, or the exception it raises. *)
Variable connect_servers :
  string -> string -> gmap string value -> result (list Server).

(** The constructor of [mysql.utilities.common.replication.Replication]. *)
Variable Replication_new :
  Server -> Server -> gmap string value -> Replication.

Definition call_connect_servers (main_vals subordinate_vals : string)
    (opts : gmap string value) : Run (list Server) :=
  emit (Connect main_vals subordinate_vals opts) ;;;
  match connect_servers main_vals subordinate_vals opts with
  | Return servers => ret servers
  | Raise e => raise e
  end.

(** A call of a check method: the call is recorded with its findings. *)
Definition call_check (c : check) (findings : list string)
    : Run (list string) :=
  emit (Checked c findings) ;;; ret findings.

Definition setup_replication (main_vals subordinate_vals rpl_user : string)
    (options : gmap string value) (test_db : option string) : Run unit :=
  let verbosity := default (VInt 0) (options !! "verbosity") in
  servers <- call_connect_servers main_vals subordinate_vals conn_options ;;
  main <- index servers 0 ;;
  subordinate <- index servers 1 ;;
  let rpl_options :=
    <["verbosity" := VBool (gt_int verbosity 0)]> options in
  (* Create an instance of the replication object *)
  let rpl := Replication_new main subordinate rpl_options in
  errors <- call_check ServerIds (check_server_ids rpl) ;;
  for_each errors (fun error => print error) ;;;
  (* Check for server_id uniqueness *)
  when (gt_int verbosity 0)
    (print ("# main id = " +:+ pretty (get_server_id main)) ;;;
     print ("#  subordinate id = " +:+ pretty (get_server_id subordinate))) ;;;
  errors <- call_check ServerUuids (check_server_uuids rpl) ;;
  for_each errors (fun error => print error) ;;;
  (* Check for server_uuid uniqueness *)
  when (gt_int verbosity 0)
    (print ("# main uuid = " +:+ get_server_uuid main) ;;;
     print ("#  subordinate uuid = " +:+ get_server_uuid subordinate)) ;;;
  (* Check InnoDB compatibility *)
  when (gt_int verbosity 0)
    (print "# Checking InnoDB statistics for type and version conflicts.") ;;;
  errors <- call_check InnodbCompatibility
              (check_innodb_compatibility rpl options) ;;
  for_each errors (fun error => print error) ;;;
  (* Checking storage engines *)
  when (gt_int verbosity 0)
    (print "# Checking storage engines...") ;;;
  errors <- call_check StorageEngines (check_storage_engines rpl options) ;;
  for_each errors (fun error => print error) ;;;
  (* Check main for binary logging *)
  print "# Checking for binary logging on main..." ;;;
  errors <- call_check MainBinlog (check_main_binlog rpl) ;;
  match errors with
  | error0 :: _ => raise (UtilError error0)
  | [] =>
      (* Setup replication *)
      print "# Setting up replication..." ;;;
      emit (Setup rpl_user 10) ;;;
      if negb (setup rpl rpl_user 10) then
        raise (UtilError "Cannot setup replication.")
      else
        (* Test the replication setup. *)
        when (truthy test_db)
          (emit (Test (default "" test_db) 10)) ;;;
        print "# ...done."
  end.

(** *** Symbolic execution of [setup_replication] *)

Definition verbose (options : gmap string value) : bool :=
  gt_int (default (VInt 0) (options !! "verbosity")) 0.

(** The events of the validation phase, up to and including the call
    of the binary-logging check. *)
Definition preflight_trace (main_vals subordinate_vals : string)
    (main subordinate : Server) (rpl : Replication)
    (options : gmap string value) : list event :=
  [Connect main_vals subordinate_vals conn_options;
   Checked ServerIds (check_server_ids rpl)]
  ++ (Print <$> check_server_ids rpl)
  ++ (if verbose options then
        [Print ("# main id = " +:+ pretty (get_server_id main));
         Print ("#  subordinate id = " +:+ pretty (get_server_id subordinate))]
      else [])
  ++ [Checked ServerUuids (check_server_uuids rpl)]
  ++ (Print <$> check_server_uuids rpl)
  ++ (if verbose options then
        [Print ("# main uuid = " +:+ get_server_uuid main);
         Print ("#  subordinate uuid = " +:+ get_server_uuid subordinate)]
      else [])
  ++ (if verbose options then
        [Print "# Checking InnoDB statistics for type and version conflicts."]
      else [])
  ++ [Checked InnodbCompatibility (check_innodb_compatibility rpl options)]
  ++ (Print <$> check_innodb_compatibility rpl options)
  ++ (if verbose options then [Print "# Checking storage engines..."] else [])
  ++ [Checked StorageEngines (check_storage_engines rpl options)]
  ++ (Print <$> check_storage_engines rpl options)
  ++ [Print "# Checking for binary logging on main...";
      Checked MainBinlog (check_main_binlog rpl)].

(** What follows a binary-logging check without findings. *)
Definition configuration (rpl : Replication) (rpl_user : string)
    (test_db : option string) : list event * unit * result unit :=
  if setup rpl rpl_user 10 then
    ([Print "# Setting up replication..."; Setup rpl_user 10]
     ++ (if truthy test_db then [Test (default "" test_db) 10] else [])
     ++ [Print "# ...done."], tt, Return tt)
  else
    ([Print "# Setting up replication..."; Setup rpl_user 10], tt,
     Raise (UtilError "Cannot setup replication.")).

Lemma bind_call_check {B} c findings (k : list string -> Run B) s :
  bind (call_check c findings) k s = after [Checked c findings] (k findings s).
Proof.
  unfold call_check. rewrite bind_bind, bind_emit. by rewrite bind_ret.
Qed.

Lemma setup_replication_resolved main_vals subordinate_vals rpl_user
    options test_db servers main subordinate :
  connect_servers main_vals subordinate_vals conn_options = Return servers ->
  servers !! 0%nat = Some main ->
  servers !! 1%nat = Some subordinate ->
  let rpl := Replication_new main subordinate (rpl_options_of options) in
  setup_replication main_vals subordinate_vals rpl_user options test_db tt =
  after (preflight_trace main_vals subordinate_vals main subordinate rpl options)
    match check_main_binlog rpl with
    | error0 :: _ => ([], tt, Raise (UtilError error0))
    | [] => configuration rpl rpl_user test_db
    end.
Proof.
  intros Hconn Hm Hs rpl.
  unfold setup_replication, call_connect_servers, index, print.
  rewrite Hconn, bind_bind, bind_emit, bind_ret.
  rewrite Hm, bind_ret, Hs, bind_ret.
  fold (rpl_options_of options). fold rpl. fold (verbose options).
  rewrite bind_call_check, bind_for_each_emit.
  erewrite bind_when_emits by reflexivity.
  rewrite bind_call_check, bind_for_each_emit.
  erewrite bind_when_emits by reflexivity.
  erewrite bind_when_emits by reflexivity.
  rewrite bind_call_check, bind_for_each_emit.
  erewrite bind_when_emits by reflexivity.
  rewrite bind_call_check, bind_for_each_emit.
  rewrite bind_emit, bind_call_check.
  rewrite !after_after. unfold preflight_trace.
  rewrite <- !app_assoc. simpl.
  f_equal.
  destruct (check_main_binlog rpl) as [|error0 errors]; [|done].
  rewrite !bind_emit. unfold configuration.
  destruct (setup rpl rpl_user 10); simpl.
  - erewrite bind_when_emits by reflexivity.
    rewrite !after_after. unfold after, emit. simpl.
    by destruct (truthy test_db).
  - done.
Qed.

(** When the connection is not resolved to a pair of servers, nothing
    but the connection attempt happens. *)
Lemma setup_replication_unresolved main_vals subordinate_vals rpl_user
    options test_db :
  match connect_servers main_vals subordinate_vals conn_options with
  | Return servers => servers !! 0%nat = None ∨ servers !! 1%nat = None
  | Raise _ => True
  end ->
  setup_replication main_vals subordinate_vals rpl_user options test_db tt =
  ([Connect main_vals subordinate_vals conn_options], tt,
   match connect_servers main_vals subordinate_vals conn_options with
   | Return _ => Raise IndexError
   | Raise e => Raise e
   end).
Proof.
  unfold setup_replication, call_connect_servers, index.
  rewrite bind_bind, bind_emit.
  destruct (connect_servers _ _ _) as [servers|e]; [|done].
  rewrite bind_ret. intros [H|H].
  - by rewrite H, bind_raise.
  - destruct (servers !! 0%nat) as [main|]; [|by rewrite bind_raise].
    by rewrite bind_ret, H, bind_raise.
Qed.

End Code.

(** *** The class [Replication], from the specification

    [mysql/utilities/common/replication.py] is not among the embedded
    files.  The definitions below give the five checks and the
    configuration step the behaviour the specification describes. *)

(** Modelled from the spec: [Replication.check_server_ids], missing from
    the embedded files.  "Server-id uniqueness: fails if main and
    subordinate share a server_id"; "for any two resolved servers with
    identical server_id, the uniqueness check yields exactly one finding
    naming both servers". *)
Definition spec_check_server_ids (main subordinate : Server) : list string :=
  if bool_decide (server_id main = server_id subordinate) then
    ["The server_id of main " +:+ address main +:+ " and subordinate "
     +:+ address subordinate +:+ " are the same."]
  else [].

(** Modelled from the spec: [Replication.check_server_uuids], missing
    from the embedded files.  "UUID uniqueness: fails if they share a
    server_uuid." *)
Definition spec_check_server_uuids (main subordinate : Server) : list string :=
  if bool_decide (server_uuid main = server_uuid subordinate) then
    ["The server_uuid of main " +:+ address main +:+ " and subordinate "
     +:+ address subordinate +:+ " are the same."]
  else [].

(** Modelled from the spec: [Replication.check_innodb_compatibility],
    missing from the embedded files.  "Compares storage-engine
    version/page-format metadata; findings are warnings unless a hard
    incompatibility (e.g. incompatible page size) is detected"; "verbosity
    affects only reporting detail, never check outcome", so the options
    are not consulted. *)
Definition spec_check_innodb_compatibility (main subordinate : Server)
    (options : gmap string value) : list string :=
  (if bool_decide (innodb_version main = innodb_version subordinate) then []
   else ["WARNING: InnoDB versions differ between main and subordinate."])
  ++ (if bool_decide (innodb_page_size main = innodb_page_size subordinate) then []
      else ["ERROR: InnoDB page sizes of main and subordinate are incompatible."]).

(** Modelled from the spec: [Replication.check_storage_engines], missing
    from the embedded files.  "Fails if a storage engine available on
    the main and used by replicated objects is unavailable or disabled
    on the subordinate": one finding per such engine. *)
Definition spec_check_storage_engines (main subordinate : Server)
    (options : gmap string value) : list string :=
  (fun engine => "Storage engine " +:+ engine
                 +:+ " is not available on the subordinate.")
  <$> filter (fun engine => engine ∈ engines main ∧ engine ∉ engines subordinate)
        (engines_in_use main).

(** Modelled from the spec: [Replication.check_main_binlog], missing
    from the embedded files.  "Binary logging on main: fails if the main
    does not have binary logging enabled." *)
Definition spec_check_main_binlog (main : Server) : list string :=
  if log_bin main then [] else ["Main must have binary logging turned on."].

(** Modelled from the spec: the start attempts of [Replication.setup],
    missing from the embedded files.  "A bounded number of start
    attempts": attempts are made until replication is found running or
    the budget is used up.  The result tells whether replication runs
    and how many attempts were made. *)
Fixpoint start_attempts (running : nat -> bool) (made budget : nat)
    : bool * nat :=
  match budget with
  | O => (false, made)
  | S budget' =>
      if running (S made) then (true, S made)
      else start_attempts running (S made) budget'
  end.

(** Modelled from the spec: [Replication.setup(rpl_user, num_tries)],
    missing from the embedded files.  "Configure the subordinate to
    replicate from the main ... with a bounded number of start attempts";
    it returns whether replication reached a running state within the
    attempt budget. *)
Definition spec_setup (subordinate : Server) (rpl_user : string)
    (num_tries : Z) : bool :=
  (start_attempts (rpl_running subordinate) 0 (Z.to_nat num_tries)).1.

(** The number of start attempts [spec_setup] makes. *)
Definition spec_setup_attempts (subordinate : Server) (num_tries : Z) : nat :=
  (start_attempts (rpl_running subordinate) 0 (Z.to_nat num_tries)).2.

(** Modelled from the spec: the constructor of the class [Replication],
    missing from the embedded files; the object's methods are the
    definitions above. *)
Definition spec_Replication (main subordinate : Server)
    (rpl_options : gmap string value) : Replication :=
  {| check_server_ids := spec_check_server_ids main subordinate;
     check_server_uuids := spec_check_server_uuids main subordinate;
     check_innodb_compatibility := spec_check_innodb_compatibility main subordinate;
     check_storage_engines := spec_check_storage_engines main subordinate;
     check_main_binlog := spec_check_main_binlog main;
     setup := spec_setup subordinate |}.

(** Modelled from the spec: the version floor of [connect_servers],
    missing from the embedded files: "VersionError (below minimum)".  The
    server meets the version asked for under the key ["version"], when
    there is one. *)
Definition meets_version (opts : gmap string value) (srv : Server) : bool :=
  match opts !! "version" with
  | Some (VStr required) =>
      match parse_version required, parse_version (version srv) with
      | Some r, Some a => version_leb r a
      | _, _ => false
      end
  | _ => true
  end.

(** Modelled from the spec: [connect_servers], missing from the embedded
    files, over a network that is a map from connection strings to
    servers.  "Produces resolved handles or fails with ConnectionError
    (unreachable, authentication failure) or VersionError (below minimum)
    or UniquenessError (two descriptors resolve to the same identity when
    uniqueness is required)", the identity being the [server_id] and the
    [server_uuid] ("UniquenessError (duplicate id/uuid)"); the error of a
    duplicate is the finding of the uniqueness check, which names both
    servers.  The utilities raise all three as [UtilError]. *)
Definition spec_connect_servers (network : gmap string Server)
    (main_vals subordinate_vals : string) (opts : gmap string value)
    : result (list Server) :=
  match network !! main_vals, network !! subordinate_vals with
  | Some main, Some subordinate =>
      if negb (meets_version opts main && meets_version opts subordinate) then
        Raise (UtilError "The server version is below the version required.")
      else if bool_decide (opts !! "unique" = Some (VBool true)) then
        match spec_check_server_ids main subordinate
              ++ spec_check_server_uuids main subordinate with
        | finding :: _ => Raise (UtilError finding)
        | [] => Return [main; subordinate]
        end
      else Return [main; subordinate]
  | _, _ => Raise (UtilError "Cannot connect to server.")
  end.

(** *** Observations on a run *)

Definition is_setup (e : event) : bool :=
  match e with Setup _ _ => true | _ => false end.

(** The run made a call of [Replication.setup]: configuration of the
    subordinate was attempted. *)
Definition configured (t : list event) : bool := existsb is_setup t.

(** The run ended with an exception before any attempt to configure the
    subordinate. *)
Definition aborted_in_preflight (out : list event * unit * result unit) : bool :=
  raised (outcome out) && negb (configured (trace out)).

(** The check report of a run: the checks called, in order, each with
    its findings. *)
Fixpoint report (t : list event) : list (check * list string) :=
  match t with
  | [] => []
  | Checked c findings :: t' => (c, findings) :: report t'
  | _ :: t' => report t'
  end.

(** The lines a run printed, in order. *)
Fixpoint printed (t : list event) : list string :=
  match t with
  | [] => []
  | Print line :: t' => line :: printed t'
  | _ :: t' => printed t'
  end.

(** The calls a run made (everything but the printing), in order. *)
Fixpoint calls (t : list event) : list event :=
  match t with
  | [] => []
  | Print _ :: t' => calls t'
  | e :: t' => e :: calls t'
  end.

(** The lines printed by the validation phase: the findings of the first
    four checks among the informative lines. *)
Definition preflight_printed (main subordinate : Server) (rpl : Replication)
    (options : gmap string value) : list string :=
  check_server_ids rpl
  ++ (if verbose options then
        ["# main id = " +:+ pretty (get_server_id main);
         "#  subordinate id = " +:+ pretty (get_server_id subordinate)]
      else [])
  ++ check_server_uuids rpl
  ++ (if verbose options then
        ["# main uuid = " +:+ get_server_uuid main;
         "#  subordinate uuid = " +:+ get_server_uuid subordinate]
      else [])
  ++ (if verbose options then
        ["# Checking InnoDB statistics for type and version conflicts."]
      else [])
  ++ check_innodb_compatibility rpl options
  ++ (if verbose options then ["# Checking storage engines..."] else [])
  ++ check_storage_engines rpl options
  ++ ["# Checking for binary logging on main..."].

(** Two option dictionaries that differ at most in their ["verbosity"]
    entry. *)
Definition same_but_verbosity (o1 o2 : gmap string value) : Prop :=
  delete "verbosity" o1 = delete "verbosity" o2.

(** Modelled from the spec: the way the class [Replication], missing
    from the embedded files, treats the verbosity it is given.  "All
    checks are pure reads ... Verbosity affects only reporting detail,
    never check outcome": objects built with, and methods called with,
    options that differ only in verbosity return the same findings and
    the same configuration result. *)
Definition ignores_verbosity
    (new : Server -> Server -> gmap string value -> Replication) : Prop :=
  ∀ main subordinate o1 o2 p1 p2,
    same_but_verbosity o1 o2 ->
    same_but_verbosity p1 p2 ->
    let r1 := new main subordinate o1 in
    let r2 := new main subordinate o2 in
    check_server_ids r1 = check_server_ids r2
    ∧ check_server_uuids r1 = check_server_uuids r2
    ∧ check_innodb_compatibility r1 p1 = check_innodb_compatibility r2 p2
    ∧ check_storage_engines r1 p1 = check_storage_engines r2 p2
    ∧ check_main_binlog r1 = check_main_binlog r2
    ∧ setup r1 = setup r2.


Definition is_test (e : event) : bool :=
  match e with Test _ _ => true | _ => false end.

(** The events of the configuration phase: the calls of [setup] and of
    [test]. *)
Definition is_configuration (e : event) : bool :=
  is_setup e || is_test e.

(** *** Example servers *)

Definition server_A : Server :=
  {| role := "main"; address := "hostA:3306"; server_id := 1;
     server_uuid := "ee2655ae-2e88-11e4-b7a3-606720440b68";
     version := "5.6.21";
     innodb_version := "5.6.21"; innodb_page_size := 16384;
     engines := ["InnoDB"; "MyISAM"]; engines_in_use := ["InnoDB"];
     log_bin := true; rpl_running := fun _ => false |}.

Definition server_B : Server :=
  {| role := "subordinate"; address := "hostB:3306"; server_id := 1;
     server_uuid := "0f4c6b1e-2e89-11e4-b7a5-606720440b68";
     version := "5.6.21";
     innodb_version := "5.6.21"; innodb_page_size := 16384;
     engines := ["InnoDB"; "MyISAM"]; engines_in_use := [];
     log_bin := false; rpl_running := fun n => bool_decide (n = 2%nat) |}.

Definition server_C : Server :=
  {| role := "subordinate"; address := "hostC:3306"; server_id := 3;
     server_uuid := "5a1d03c2-2e8a-11e4-b7a8-606720440b68";
     version := "5.5.40";
     innodb_version := "5.5.40"; innodb_page_size := 16384;
     engines := ["InnoDB"]; engines_in_use := [];
     log_bin := false; rpl_running := fun _ => false |}.

(** A subordinate on which replication runs after the second start
    attempt. *)
Definition server_D : Server :=
  {| role := "subordinate"; address := "hostD:3306"; server_id := 4;
     server_uuid := "7c3e9a10-2e8b-11e4-b7aa-606720440b68";
     version := "5.5.40";
     innodb_version := "5.5.40"; innodb_page_size := 16384;
     engines := ["InnoDB"; "MyISAM"]; engines_in_use := [];
     log_bin := false; rpl_running := fun n => bool_decide (n = 2%nat) |}.

(** A server older than the version [setup_replication] asks for. *)
Definition server_E : Server :=
  {| role := "subordinate"; address := "hostE:3306"; server_id := 5;
     server_uuid := "91b2c644-2e8c-11e4-b7ac-606720440b68";
     version := "4.1.22";
     innodb_version := "4.1.22"; innodb_page_size := 16384;
     engines := ["InnoDB"]; engines_in_use := [];
     log_bin := false; rpl_running := fun _ => false |}.

(** A replication object whose binary-logging check has two findings. *)
Definition two_findings_Replication (main subordinate : Server)
    (rpl_options : gmap string value) : Replication :=
  {| check_server_ids := spec_check_server_ids main subordinate;
     check_server_uuids := spec_check_server_uuids main subordinate;
     check_innodb_compatibility := spec_check_innodb_compatibility main subordinate;
     check_storage_engines := spec_check_storage_engines main subordinate;
     check_main_binlog :=
       ["Main must have binary logging turned on.";
        "Main must have a binary log file."];
     setup := spec_setup subordinate |}.

Definition network : gmap string Server :=
  <["root:pw@hostA:3306" := server_A]>
    (<["root:pw@hostB:3306" := server_B]>
      (<["root:pw@hostC:3306" := server_C]>
        (<["root:pw@hostD:3306" := server_D]>
          (<["root:pw@hostE:3306" := server_E]> ∅)))).

End SetupRpl.

(** ** [start_ms_replication] *)

Module StartMs.

(** An instance of the class [ReplicationMultiSource]: how each method
    called by [start_ms_replication] ends.  [start] takes the keyword
    argument [detach_process], [None] when the caller leaves it out. *)
Record ReplicationMultiSource := {
  start : option bool -> result unit;
  stop : result unit;
  restart : result unit;
  stop_replication : result unit;
}.

(** The method calls made on the daemon object. *)
Inductive event :=
| Start (detach_process : option bool)
| Stop
| Restart
| StopReplication.

#[global] Instance event_eq_dec : EqDecision event.
Proof. solve_decision. Defined.

Abbreviation Run := (M event unit).

(** A method call: it is recorded, and ends as the object says. *)
Definition call (e : event) (r : result unit) : Run unit :=
  emit e ;;;
  match r with
  | Return _ => ret tt
  | Raise x => raise x
  end.

Definition is_KeyboardInterrupt (e : exn) : bool :=
  bool_decide (e = KeyboardInterrupt).

Section Code.
(** The constructor of the class [ReplicationMultiSource]. *)
Variable ReplicationMultiSource_new :
  gmap string value -> list (gmap string value) -> gmap string value ->
  ReplicationMultiSource.

Definition start_ms_replication (subordinate_vals : gmap string value)
    (mains_vals : list (gmap string value)) (options : gmap string value)
    : Run unit :=
  let rplms := ReplicationMultiSource_new subordinate_vals mains_vals options in
  let daemon := default VNone (options !! "daemon") in
  if eq_str daemon "start" then
    call (Start None) (start rplms None)
  else if eq_str daemon "stop" then
    call Stop (stop rplms)
  else if eq_str daemon "restart" then
    call Restart (restart rplms)
  else
    try_except
      (* Start in foreground *)
      (call (Start (Some false)) (start rplms (Some false)))
      is_KeyboardInterrupt
      (* Stop multi-source replication *)
      (fun _ => call StopReplication (stop_replication rplms)).
End Code.

(** Modelled from the spec: the default of the keyword [detach_process]
    of [ReplicationMultiSource.start], missing from the embedded files.
    "[start] supports a foreground mode ... and a detached mode"; the
    foreground mode is the one asked for with [detach_process=False],
    so a call that leaves the keyword out starts the daemon detached. *)
Definition detached (detach_process : option bool) : bool :=
  default true detach_process.

(** An example daemon object: interrupted from the keyboard while it
    runs in the foreground. *)
Definition interrupted_daemon : ReplicationMultiSource :=
  {| start := fun detach_process =>
                if detached detach_process then Return tt
                else Raise KeyboardInterrupt;
     stop := Return tt;
     restart := Return tt;
     stop_replication := Return tt |}.

End StartMs.

(** ** GTID sets

    The value type [GtidSet] of the specification: a map from the UUID of
    a source server to a list of ranges of transaction numbers.  The
    utility of [scripts/mysqlslavetrx.py] hands the sets to
    [mysql.utilities.command.rpl_admin], which is not among the embedded
    files; the operations below are modelled from the specification. *)

Module Gtid.

(** Does the range [r], both ends included, hold the number [n]? *)
Definition in_range (n : Z) (r : Z * Z) : bool :=
  bool_decide (r.1 ≤ n ∧ n ≤ r.2).

Definition in_ranges (n : Z) (l : list (Z * Z)) : bool :=
  existsb (in_range n) l.

(** The ranges of the source [uuid] in the set [S]. *)
Definition ranges_of (S : gmap string (list (Z * Z))) (uuid : string)
    : list (Z * Z) :=
  default [] (S !! uuid).

(** Does the set [S] hold the GTID [uuid:n]? *)
Definition member (S : gmap string (list (Z * Z))) (uuid : string) (n : Z)
    : bool :=
  in_ranges n (ranges_of S uuid).

(** "A GtidSet range never has start > end". *)
Definition valid_ranges (l : list (Z * Z)) : Prop :=
  Forall (fun r => r.1 ≤ r.2) l.

Definition valid (S : gmap string (list (Z * Z))) : Prop :=
  map_Forall (fun _ l => valid_ranges l) S.

(** "Ranges for a given UUID are kept sorted and non-overlapping": every
    range has start ≤ end and starts above the end of the range before
    it; the first range starts at [lo] or above. *)
Fixpoint ordered_from (lo : Z) (l : list (Z * Z)) : Prop :=
  match l with
  | [] => True
  | r :: l' => lo ≤ r.1 ∧ r.1 ≤ r.2 ∧ ordered_from (r.2 + 1) l'
  end.

Definition ordered (l : list (Z * Z)) : Prop := ∃ lo, ordered_from lo l.

(** The invariant of the data model on a GTID set. *)
Definition well_formed (S : gmap string (list (Z * Z))) : Prop :=
  map_Forall (fun _ l => ordered l) S.

(** Modelled from the spec: the subtraction of one range from another,
    a step of the "per-source-UUID range subtraction" of the skip
    engine, missing from the embedded files.  What is left of [r]
    outside [x]: the part below [x] and the part above it, when they are
    not empty. *)
Definition range_minus (r x : Z * Z) : list (Z * Z) :=
  (if bool_decide (r.1 ≤ Z.min r.2 (x.1 - 1))
   then [(r.1, Z.min r.2 (x.1 - 1))] else [])
  ++ (if bool_decide (Z.max r.1 (x.2 + 1) ≤ r.2)
      then [(Z.max r.1 (x.2 + 1), r.2)] else []).

(** Modelled from the spec: the range [x] taken out of every range of
    the list [l], in the order of [l]. *)
Definition ranges_minus_range (l : list (Z * Z)) (x : Z * Z) : list (Z * Z) :=
  flat_map (fun r => range_minus r x) l.

(** Modelled from the spec: the ranges [xs] taken out of [l], one after
    the other. *)
Definition ranges_minus (l xs : list (Z * Z)) : list (Z * Z) :=
  foldl ranges_minus_range l xs.

(** Modelled from the spec: the set difference of GTID sets,
    "toSkip = requested − executed (set difference, per-source-UUID
    range subtraction)".  A source with no range left is dropped, so
    that the empty difference is the empty map. *)
Definition subtract (S E : gmap string (list (Z * Z)))
    : gmap string (list (Z * Z)) :=
  map_imap (fun uuid l =>
              match ranges_minus l (ranges_of E uuid) with
              | [] => None
              | d => Some d
              end) S.

(** Modelled from the spec: a range added to the ranges a server has
    executed.  The list stays in order; ranges that overlap or touch
    the new one are merged with it. *)
Fixpoint ranges_add (r : Z * Z) (l : list (Z * Z)) : list (Z * Z) :=
  match l with
  | [] => [r]
  | x :: l' =>
      if bool_decide (r.2 + 1 < x.1) then r :: x :: l'
      else if bool_decide (x.2 + 1 < r.1) then x :: ranges_add r l'
      else ranges_add (Z.min r.1 x.1, Z.max r.2 x.2) l'
  end.

(** Modelled from the spec: the executed set of a server after the
    transactions of the range [r] of the source [uuid] are committed
    on it. *)
Definition add_range (uuid : string) (r : Z * Z)
    (E : gmap string (list (Z * Z))) : gmap string (list (Z * Z)) :=
  <[uuid := ranges_add r (ranges_of E uuid)]> E.

(** The ranges of a set with their source, the ranges of one source in
    their order. *)
Definition to_ranges (S : gmap string (list (Z * Z)))
    : list (string * (Z * Z)) :=
  flat_map (fun '(uuid, l) => (fun r => (uuid, r)) <$> l) (map_to_list S).

End Gtid.

(** ** [scripts/mysqlslavetrx.py] *)

Module SlaveTrx.
Import Gtid Text.

(** A subordinate server as the utility sees it: the set of GTIDs it
    has executed, and the empty transactions it would refuse
    ([refuses uuid r]: injecting the range [r] of the source [uuid]
    fails on this server). *)
Record Subordinate := {
  executed : gmap string (list (Z * Z));
  refuses : string -> Z * Z -> bool;
}.

Definition with_executed (sub : Subordinate)
    (E : gmap string (list (Z * Z))) : Subordinate :=
  {| executed := E; refuses := refuses sub |}.

(** The parsed command line, the object [opt] of the script. *)
Record Opt := {
  gtid_set : option string;
  subordinates : option string;
  dry_run : bool;
  verbosity : option Z;
  main : option string;
}.

(** [opt.main = None] *)
Definition set_main_None (opt : Opt) : Opt :=
  {| gtid_set := gtid_set opt; subordinates := subordinates opt;
     dry_run := dry_run opt; verbosity := verbosity opt; main := None |}.

(** What the utility does to the outside. *)
Inductive event :=
| CheckPasswordSecurity
| Stderr (text : string)
| ParseTopologyConnections (opt : Opt)
| ConnectFailed (conn : string)
| FetchExecuted (conn : string)
| NothingToSkip (conn : string)
| ToSkip (conn : string) (gtids : gmap string (list (Z * Z)))
| Injected (conn : string) (uuid : string) (r : Z * Z)
| InjectFailed (conn : string) (uuid : string) (r : Z * Z)
| PartiallySkipped (conn : string).

(** The events in which a subordinate, or its connection descriptor, is
    involved: everything but the password check and the error output. *)
Definition touches_subordinates (e : event) : bool :=
  match e with
  | CheckPasswordSecurity | Stderr _ => false
  | _ => true
  end.

Definition is_injection (e : event) : bool :=
  match e with
  | Injected _ _ _ | InjectFailed _ _ _ => true
  | _ => false
  end.

(** The state of a run: the subordinates by connection descriptor. *)
Abbreviation World := (gmap string Subordinate).

Definition newline : string := String "010"%char EmptyString.

(** [options.get("dry_run")] read as a boolean. *)
Definition dry_run_of (options : gmap string value) : bool :=
  match options !! "dry_run" with
  | Some (VBool b) => b
  | _ => false
  end.

(** The exceptions caught by [except UtilRplError] and by
    [except UtilError].  A clause catches the class it names and its
    subclasses; [mysql.utilities.exception] declares
    [class UtilRplError(UtilError)], so the second clause catches both
    and the first does not catch a plain [UtilError]. *)
Definition is_UtilRplError (e : exn) : bool :=
  match e with UtilRplError _ => true | _ => false end.

Definition is_UtilError (e : exn) : bool :=
  match e with UtilError _ | UtilRplError _ => true | _ => false end.

(** [err.errmsg] *)
Definition errmsg_of (e : exn) : string :=
  match e with
  | UtilError msg | UtilRplError msg => msg
  | _ => ""
  end.

Section Code.
(** The grammar of GTID sets: the parser shared by
    [check_gtid_set_format] and [skip_subordinates_trx], [None] on a
    malformed string. *)
Variable parse_gtid_set : string -> option (gmap string (list (Z * Z))).

(** [mysql.utilities.common.topology.parse_topology_connections]: the
    connection values of the subordinates, or the exception raised. *)
Variable parse_topology_connections : Opt -> result (list string).

(** The message [PARSE_ERR_OPTS_REQ] of
    [mysql.utilities.common.messages], formatted with the option. *)
Variable PARSE_ERR_OPTS_REQ : string -> string.

(** *** The skip engine, from the specification *)

(** Modelled from the spec: the injection of empty transactions by
    [skip_subordinates_trx], missing from the embedded files.  "For
    each remaining range, inject an empty transaction tagged with that
    GTID so the subordinate's executed set advances"; a failure stops
    the work on this subordinate.  The result tells whether every
    range was injected. *)
Fixpoint inject (conn : string) (todo : list (string * (Z * Z)))
    : M event Subordinate bool :=
  match todo with
  | [] => ret true
  | (uuid, r) :: todo' =>
      sub <- get ;;
      if refuses sub uuid r then
        emit (InjectFailed conn uuid r) ;;; ret false
      else
        put (with_executed sub (add_range uuid r (executed sub))) ;;;
        emit (Injected conn uuid r) ;;;
        inject conn todo'
  end.

(** Modelled from the spec: the work of [skip_subordinates_trx] on
    one subordinate, missing from the embedded files.  "Fetch its
    current executed-GTID set; compute toSkip = requested − executed;
    if toSkip is empty, report nothing to skip for that subordinate
    (no-op, not an error).  Otherwise, for each remaining range, inject
    an empty transaction ...  In dry-run mode, compute and report
    toSkip without injecting anything ...  Failure injecting one range
    marks that subordinate partially skipped."  The result tells
    whether the subordinate is done. *)
Definition skip_trx (conn : string) (request : gmap string (list (Z * Z)))
    (dry : bool) : M event Subordinate bool :=
  sub <- get ;;
  emit (FetchExecuted conn) ;;;
  let toSkip := subtract request (executed sub) in
  if bool_decide (toSkip = ∅) then
    emit (NothingToSkip conn) ;;; ret true
  else
    emit (ToSkip conn toSkip) ;;;
    if dry then ret true
    else
      ok <- inject conn (to_ranges toSkip) ;;
      when (negb ok) (emit (PartiallySkipped conn)) ;;;
      ret ok.

(** Modelled from the spec: [skip_trx] run on the subordinate behind
    a connection descriptor; a subordinate that cannot be reached is
    not done. *)
Definition skip_subordinate (conn : string)
    (request : gmap string (list (Z * Z))) (dry : bool)
    : M event World bool :=
  fun w =>
    match w !! conn with
    | None => ([ConnectFailed conn], w, Return false)
    | Some sub =>
        match skip_trx conn request dry sub with
        | (t, sub', r) => (t, <[conn := sub']> w, r)
        end
    end.

(** Modelled from the spec: "for each subordinate (processed
    independently, result per subordinate)"; a failure on one
    subordinate "continues to the next subordinate".  The result tells
    whether every subordinate is done. *)
Fixpoint skip_each (conns : list string)
    (request : gmap string (list (Z * Z))) (dry : bool)
    : M event World bool :=
  match conns with
  | [] => ret true
  | conn :: conns' =>
      ok <- skip_subordinate conn request dry ;;
      oks <- skip_each conns' request dry ;;
      ret (ok && oks)
  end.

(** Modelled from the spec:
    [rpl_admin.skip_subordinates_trx(gtid_set, subordinates, options)],
    missing from the embedded files: "skip(gtidSet, subordinates,
    options{dryRun})", "surfacing an aggregate report at the end"; a
    run in which a subordinate is not done ends with an error. *)
Definition skip_subordinates_trx (gtid_set : string)
    (subordinates_val : list string) (options : gmap string value)
    : M event World unit :=
  match parse_gtid_set gtid_set with
  | None => raise (GtidFormatError gtid_set)
  | Some request =>
      ok <- skip_each subordinates_val request (dry_run_of options) ;;
      if ok then ret tt
      else raise (UtilError "Transactions were not skipped on all subordinates.")
  end.

(** Modelled from the spec: [options.check_gtid_set_format], missing
    from the embedded files.  "A malformed GTID set string fails fast
    with GtidFormatError." *)
Definition check_gtid_set_format (gtid_set : string) : M event World unit :=
  match parse_gtid_set gtid_set with
  | None => raise (GtidFormatError gtid_set)
  | Some _ => ret tt
  end.

(** *** The script *)

(** [parser.error(msg)] of [optparse]: the message goes to the
    standard error and the program exits with status 2. *)
Definition parser_error {A} (msg : string) : M event World A :=
  emit (Stderr msg) ;;; raise (SystemExit 2).

(** [sys.stderr.write("ERROR: {0}\n".format(err.errmsg)); sys.exit(1)] *)
Definition report_and_exit {A} (err : exn) : M event World A :=
  emit (Stderr ("ERROR: " +:+ errmsg_of err +:+ newline)) ;;;
  raise (SystemExit 1).

Definition call_parse_topology_connections (opt : Opt)
    : M event World (list string) :=
  emit (ParseTopologyConnections opt) ;;;
  match parse_topology_connections opt with
  | Return subordinates_val => ret subordinates_val
  | Raise e => raise e
  end.

(** The block under [if __name__ == '__main__':], after the command
    line is parsed into [opt] and [args].  (The checks of the Python
    version and of the connector at the top of the module come before
    the block and end the program before it starts.) *)
Definition main_block (opt : Opt) (args : list string) : M event World unit :=
  (* Check security settings *)
  emit CheckPasswordSecurity ;;;
  (* Options --gtid-set and --subordinates options are required. *)
  (if negb (truthy (gtid_set opt))
   then parser_error (PARSE_ERR_OPTS_REQ "--gtid-set") else ret tt) ;;;
  (if negb (truthy (subordinates opt))
   then parser_error (PARSE_ERR_OPTS_REQ "--subordinates") else ret tt) ;;;
  (* Check GTID set format. *)
  check_gtid_set_format (default "" (gtid_set opt)) ;;;
  (* Parse the connection parameters for the subordinates (no candidates). *)
  subordinates_val <-
    try_except (call_parse_topology_connections (set_main_None opt))
      is_UtilRplError report_and_exit ;;
  (* Create dictionary of options *)
  let options : gmap string value :=
    <["verbosity" := VInt (default 0 (verbosity opt))]>
      (<["dry_run" := VBool (dry_run opt)]> ∅) in
  (* Skip transactions for the given list of subordinates. *)
  try_except
    (skip_subordinates_trx (default "" (gtid_set opt)) subordinates_val options)
    is_UtilError report_and_exit.
End Code.

(** *** A parser of the wire format, from the specification *)

(** A range [n] or [n-m]; a reversed range is rejected. *)
Definition parse_range (s : string) : option (Z * Z) :=
  match split_on "-" s with
  | [a] => n ← number a; Some (n, n)
  | [a; b] =>
      n ← number a; m ← number b;
      if bool_decide (n ≤ m) then Some (n, m) else None
  | _ => None
  end.

(** The comma-separated pieces of a GTID set: a piece [uuid:range...]
    starts the ranges of a source, a piece that is only a range goes on
    with the ranges of the source before it. *)
Fixpoint parse_pieces (current : option string) (pieces : list string)
    : option (list (string * (Z * Z))) :=
  match pieces with
  | [] => Some []
  | piece :: pieces' =>
      match split_on ":" piece with
      | [r] =>
          uuid ← current; x ← parse_range r;
          rest ← parse_pieces current pieces';
          Some ((uuid, x) :: rest)
      | uuid :: rs =>
          if bool_decide (uuid = "") then None
          else
            xs ← mapM parse_range rs;
            rest ← parse_pieces (Some uuid) pieces';
            Some (((fun x => (uuid, x)) <$> xs) ++ rest)
      | [] => None
      end
  end.

(** Ranges in ascending order that do not overlap. *)
Fixpoint ascending (l : list (Z * Z)) : bool :=
  match l with
  | x :: l' =>
      match l' with
      | y :: _ => bool_decide (x.2 < y.1) && ascending l'
      | [] => true
      end
  | [] => true
  end.

(** Modelled from the spec: the parser of the wire format of GTID sets,
    missing from the embedded files.  "Comma-separated entries of
    source-uuid:range[-range]..., e.g. uuid:10-12,15.  Parser must
    reject overlapping/reversed ranges." *)
Definition spec_parse_gtid_set (s : string)
    : option (gmap string (list (Z * Z))) :=
  ranges ← parse_pieces None (split_on "," s);
  let S : gmap string (list (Z * Z)) :=
    foldl (fun S '(uuid, x) => <[uuid := ranges_of S uuid ++ [x]]> S) ∅ ranges in
  if forallb (fun entry => ascending entry.2) (map_to_list S)
  then Some S else None.

(** *** Observations on a run *)

(** Every executed set of the world keeps "start ≤ end". *)
Definition valid_world (w : gmap string Subordinate) : Prop :=
  map_Forall (fun _ sub => valid (executed sub)) w.

(** What a dry run reports for a subordinate of the world [w]: the set
    it would skip there. *)
Definition dry_report (request : gmap string (list (Z * Z)))
    (w : gmap string Subordinate) (conn : string) : list event :=
  match w !! conn with
  | None => [ConnectFailed conn]
  | Some sub =>
      let toSkip := subtract request (executed sub) in
      [FetchExecuted conn;
       if bool_decide (toSkip = ∅) then NothingToSkip conn
       else ToSkip conn toSkip]
  end.

(** Nothing of the request is left to skip on the subordinate behind
    [conn]. *)
Definition done_on (request : gmap string (list (Z * Z)))
    (w : gmap string Subordinate) (conn : string) : Prop :=
  ∃ sub, w !! conn = Some sub ∧ subtract request (executed sub) = ∅.

(** From [w] to [w'] no subordinate is lost and executed sets only
    grow. *)
Definition world_le (w w' : gmap string Subordinate) : Prop :=
  ∀ conn sub,
    w !! conn = Some sub ->
    ∃ sub', w' !! conn = Some sub'
            ∧ ∀ uuid n, member (executed sub) uuid n = true ->
                        member (executed sub') uuid n = true.

Definition reachable (w : gmap string Subordinate) (conn : string) : bool :=
  bool_decide (is_Some (w !! conn)).

(** *** Example subordinates *)

Definition source_uuid : string := "ee2655ae-2e88-11e4-b7a3-606720440b68".

(** A subordinate that has executed transaction 10 of the source. *)
Definition subordinate_1 : Subordinate :=
  {| executed := {[ source_uuid := [(10, 10)] ]};
     refuses := fun _ _ => false |}.

(** A subordinate that has executed nothing. *)
Definition subordinate_2 : Subordinate :=
  {| executed := ∅; refuses := fun _ _ => false |}.

Definition world : gmap string Subordinate :=
  <["rpl:pass@host2:3306" := subordinate_1]>
    (<["rpl:pass@host3:3306" := subordinate_2]> ∅).

Definition spec_parse_topology_connections (opt : Opt) : result (list string) :=
  match subordinates opt with
  | Some s => Return (split_on "," s)
  | None => Raise (UtilRplError "No subordinates given.")
  end.

Definition example_opt (gtids : string) (dry : bool) : Opt :=
  {| gtid_set := Some gtids;
     subordinates := Some "rpl:pass@host2:3306,rpl:pass@host3:3306";
     dry_run := dry; verbosity := None; main := None |}.

End SlaveTrx.

(** ** The program of [scripts/mysqlslavetrx.py] over any library

    The whole file, from the checks at the top of the module to the end of
    the [__main__] block, with every function it imports taken as a
    computation of the section: whatever these do, print or raise, the
    program calls them in the order and with the arguments written in the
    file.  [SlaveTrx.main_block] is the [main_body] below at the skip engine
    modelled from the specification. *)

Module Program.
Import SlaveTrx.

Section Code.
(** [mysql.utilities.common.tools.check_python_version] and
    [check_connector_python]. *)
Variable check_python_version : M event World unit.
Variable check_connector_python : M event World bool.

(** The construction of the option parser and [parser.parse_args()]
    (lines 96 to 121 of the script): the parsed [opt] and [args]. *)
Variable parse_args : M event World (Opt * list string).

(** The functions of [mysql.utilities.common] and
    [mysql.utilities.command.rpl_admin] called by the [__main__] block. *)
Variable check_password_security : Opt -> list string -> M event World unit.
Variable check_gtid_set_format : string -> M event World unit.
Variable parse_topology_connections : Opt -> M event World (list string).
Variable skip_subordinates_trx :
  string -> list string -> gmap string value -> M event World unit.
Variable PARSE_ERR_OPTS_REQ : string -> string.

(** The dictionary [options] built from the command line. *)
Definition options_of (opt : Opt) : gmap string value :=
  <["verbosity" := VInt (default 0 (verbosity opt))]>
    (<["dry_run" := VBool (dry_run opt)]> ∅).

(** The block under [if __name__ == '__main__':], from the password
    check on. *)
Definition main_body (opt : Opt) (args : list string) : M event World unit :=
  (* Check security settings *)
  check_password_security opt args ;;;
  (* Options --gtid-set and --subordinates options are required. *)
  (if negb (truthy (gtid_set opt))
   then parser_error (PARSE_ERR_OPTS_REQ "--gtid-set") else ret tt) ;;;
  (if negb (truthy (subordinates opt))
   then parser_error (PARSE_ERR_OPTS_REQ "--subordinates") else ret tt) ;;;
  (* Check GTID set format. *)
  check_gtid_set_format (default "" (gtid_set opt)) ;;;
  (* Parse the connection parameters for the subordinates (no candidates). *)
  subordinates_val <-
    try_except (parse_topology_connections (set_main_None opt))
      is_UtilRplError report_and_exit ;;
  (* Create dictionary of options *)
  let options : gmap string value :=
    <["verbosity" := VInt (default 0 (verbosity opt))]>
      (<["dry_run" := VBool (dry_run opt)]> ∅) in
  (* Skip transactions for the given list of subordinates. *)
  try_except
    (skip_subordinates_trx (default "" (gtid_set opt)) subordinates_val options)
    is_UtilError report_and_exit.

(** The script: the checks at the top of the module, the parsing of the
    command line, and the block above. *)
Definition program : M event World unit :=
  (* Check Python version compatibility *)
  check_python_version ;;;
  (* Check for connector/python *)
  connector <- check_connector_python ;;
  if negb connector then raise (SystemExit 1)
  else
    parsed <- parse_args ;;
    main_body parsed.1 parsed.2.
End Code.

(** *** Example library functions *)

(** A topology parser that rejects every list of subordinates. *)
Definition failing_parse_topology_connections (opt : Opt)
    : M event World (list string) :=
  emit (ParseTopologyConnections opt) ;;;
  raise (UtilRplError "Cannot parse the subordinates.").

(** A skip engine that fails with a replication error. *)
Definition failing_skip (gtids : string) (conns : list string)
    (options : gmap string value) : M event World unit :=
  raise (UtilRplError "The subordinates do not have GTIDs enabled.").

(** A command line that names one subordinate the world does not have. *)
Definition unreachable_opt : Opt :=
  {| gtid_set := Some "u1:10-12"; subordinates := Some "rpl:pass@host9:3306";
     dry_run := false; verbosity := Some 2; main := Some "root@host1:3306" |}.

(** The message of a missing option. *)
Definition required (opt : string) : string :=
  "Option " +:+ opt +:+ " is required.".

(** A password check that finds nothing to say. *)
Definition password_check (opt : Opt) (args : list string) : M event World unit :=
  emit CheckPasswordSecurity.

(** A world without subordinates. *)
Definition nobody : gmap string Subordinate := ∅.

(** A command line without [--subordinates]. *)
Definition alone_opt : Opt :=
  {| gtid_set := Some "u1:10-12"; subordinates := None;
     dry_run := false; verbosity := None; main := None |}.

(** A connection that resolves to one server only. *)
Definition one_server_connect (main_vals subordinate_vals : string)
    (opts : gmap string value) : result (list SetupRpl.Server) :=
  Return [SetupRpl.server_A].

(** A command line without [--gtid-set] and without [--subordinates]. *)
Definition empty_opt : Opt :=
  {| gtid_set := None; subordinates := None;
     dry_run := false; verbosity := None; main := None |}.

End Program.

(** * Properties *)

(** ** Properties of [setup_replication] *)

Section SetupReplicationFacts.
Import SetupRpl.
Implicit Types (t : list event).

Lemma trace_after {A} t (out : list event * unit * result A) :
  trace (after t out) = t ++ trace out.
Proof. done. Qed.

Lemma outcome_after {A} t (out : list event * unit * result A) :
  outcome (after t out) = outcome out.
Proof. done. Qed.

Lemma report_app t t' : report (t ++ t') = report t ++ report t'.
Proof.
  induction t as [|e t IH]; [done|]. destruct e; simpl; by rewrite ?IH.
Qed.

Lemma report_prints (l : list string) : report (Print <$> l) = [].
Proof. by induction l. Qed.

Lemma printed_app t t' : printed (t ++ t') = printed t ++ printed t'.
Proof.
  induction t as [|e t IH]; [done|]. destruct e; simpl; by rewrite ?IH.
Qed.

Lemma printed_prints (l : list string) : printed (Print <$> l) = l.
Proof. induction l as [|x l IH]; [done|]. simpl. f_equal. exact IH. Qed.

Lemma calls_app t t' : calls (t ++ t') = calls t ++ calls t'.
Proof.
  induction t as [|e t IH]; [done|]. destruct e; simpl; by rewrite ?IH.
Qed.

Lemma calls_prints (l : list string) : calls (Print <$> l) = [].
Proof. by induction l. Qed.

Lemma configured_app t t' : configured (t ++ t') = configured t || configured t'.
Proof. apply existsb_app. Qed.

Lemma configured_prints (l : list string) : configured (Print <$> l) = false.
Proof. by induction l. Qed.

Lemma filter_setup_app t t' :
  filter (fun e => is_setup e = true) (t ++ t')
  = filter (fun e => is_setup e = true) t ++ filter (fun e => is_setup e = true) t'.
Proof. apply filter_app. Qed.

Lemma filter_setup_prints (l : list string) :
  filter (fun e => is_setup e = true) (Print <$> l) = [].
Proof.
  induction l as [|x l IH]; [done|].
  rewrite fmap_cons, filter_cons_False; [done|]. simpl. congruence.
Qed.

Lemma configured_preflight mv sv m s rpl options :
  configured (preflight_trace mv sv m s rpl options) = false.
Proof.
  unfold preflight_trace. rewrite !configured_app, !configured_prints.
  by destruct (verbose options).
Qed.

Lemma report_preflight mv sv m s rpl options :
  report (preflight_trace mv sv m s rpl options)
  = [(ServerIds, check_server_ids rpl);
     (ServerUuids, check_server_uuids rpl);
     (InnodbCompatibility, check_innodb_compatibility rpl options);
     (StorageEngines, check_storage_engines rpl options);
     (MainBinlog, check_main_binlog rpl)].
Proof.
  unfold preflight_trace. rewrite !report_app, !report_prints.
  by destruct (verbose options).
Qed.

Lemma configured_configuration rpl rpl_user test_db :
  configured (trace (configuration rpl rpl_user test_db)) = true.
Proof. unfold configuration. by destruct (setup rpl rpl_user 10). Qed.

Lemma no_setup_filter t :
  configured t = false -> filter (fun e => is_setup e = true) t = [].
Proof.
  induction t as [|e t IH]; [done|]. simpl. intros [He Ht]%orb_false_elim.
  rewrite filter_cons_False by congruence. auto.
Qed.

Lemma printed_preflight mv sv m s rpl options :
  printed (preflight_trace mv sv m s rpl options)
  = preflight_printed m s rpl options.
Proof.
  unfold preflight_trace, preflight_printed.
  rewrite !printed_app, !printed_prints.
  by destruct (verbose options).
Qed.

Lemma calls_preflight mv sv m s rpl options :
  calls (preflight_trace mv sv m s rpl options)
  = [Connect mv sv conn_options;
     Checked ServerIds (check_server_ids rpl);
     Checked ServerUuids (check_server_uuids rpl);
     Checked InnodbCompatibility (check_innodb_compatibility rpl options);
     Checked StorageEngines (check_storage_engines rpl options);
     Checked MainBinlog (check_main_binlog rpl)].
Proof.
  unfold preflight_trace. rewrite !calls_app, !calls_prints.
  by destruct (verbose options).
Qed.

Lemma report_configuration rpl rpl_user test_db :
  report (trace (configuration rpl rpl_user test_db)) = [].
Proof.
  unfold configuration.
  by destruct (setup rpl rpl_user 10), (truthy test_db).
Qed.
End SetupReplicationFacts.

Section SetupReplication.
Import SetupRpl.

Variable connect_servers :
  string -> string -> gmap string value -> result (list Server).
Variable Replication_new :
  Server -> Server -> gmap string value -> Replication.

Variables (main_vals subordinate_vals rpl_user : string).
Variable test_db : option string.

Let run (options : gmap string value) :=
  setup_replication connect_servers Replication_new
    main_vals subordinate_vals rpl_user options test_db tt.

(** C1: for a resolved main/subordinate pair, [setup_replication] ends
    with an exception before any attempt to configure the subordinate
    exactly when the binary-logging check returns findings; the findings
    of the server-id, UUID, InnoDB and storage-engine checks are all
    printed, and with no binary-logging finding the run goes on to the
    configuration step whatever those four checks found. *)
Theorem setup_replication_aborts_iff_binlog_findings
    options servers main subordinate :
  connect_servers main_vals subordinate_vals conn_options = Return servers ->
  servers !! 0%nat = Some main ->
  servers !! 1%nat = Some subordinate ->
  let rpl := Replication_new main subordinate (rpl_options_of options) in
  (aborted_in_preflight (run options) = true <-> check_main_binlog rpl ≠ [])
  ∧ (∀ finding,
       finding ∈ check_server_ids rpl ++ check_server_uuids rpl
                 ++ check_innodb_compatibility rpl options
                 ++ check_storage_engines rpl options ->
       Print finding ∈ trace (run options))
  ∧ (check_main_binlog rpl = [] -> configured (trace (run options)) = true).
Proof.
  intros Hconn Hm Hs rpl. unfold run.
  rewrite (setup_replication_resolved _ _ _ _ _ _ _ _ _ _ Hconn Hm Hs).
  fold rpl. unfold aborted_in_preflight.
  rewrite trace_after, outcome_after, configured_app, configured_preflight.
  split; [|split].
  - destruct (check_main_binlog rpl) as [|error0 errors]; simpl.
    + rewrite configured_configuration, andb_false_r. split; [done|congruence].
    + done.
  - intros finding Hin. apply elem_of_app; left.
    unfold preflight_trace.
    rewrite !elem_of_app in Hin. rewrite !elem_of_app, !list_elem_of_fmap.
    destruct Hin as [H|[H|[H|H]]]; eauto 20.
  - intros ->. by rewrite configured_configuration.
Qed.

(** C5: for a resolved main/subordinate pair, the run calls the five
    checks once each, in the order server ids, server UUIDs, InnoDB
    compatibility, storage engines, binary logging of the main. *)
Theorem setup_replication_checks_in_order options servers main subordinate :
  connect_servers main_vals subordinate_vals conn_options = Return servers ->
  servers !! 0%nat = Some main ->
  servers !! 1%nat = Some subordinate ->
  let rpl := Replication_new main subordinate (rpl_options_of options) in
  report (trace (run options))
  = [(ServerIds, check_server_ids rpl);
     (ServerUuids, check_server_uuids rpl);
     (InnodbCompatibility, check_innodb_compatibility rpl options);
     (StorageEngines, check_storage_engines rpl options);
     (MainBinlog, check_main_binlog rpl)].
Proof.
  intros Hconn Hm Hs rpl. unfold run.
  rewrite (setup_replication_resolved _ _ _ _ _ _ _ _ _ _ Hconn Hm Hs).
  fold rpl. rewrite trace_after, report_app, report_preflight.
  destruct (check_main_binlog rpl) as [|error0 errors]; simpl.
  - by rewrite report_configuration.
  - done.
Qed.

(** C7: when the binary-logging check has no findings, the run makes
    exactly one configuration call, [setup(rpl_user, 10)], with an
    attempt budget of 10; if that call reports that replication is not
    running, the run ends with [UtilError("Cannot setup replication.")],
    and otherwise it returns. *)
Theorem setup_replication_attempt_budget options servers main subordinate :
  connect_servers main_vals subordinate_vals conn_options = Return servers ->
  servers !! 0%nat = Some main ->
  servers !! 1%nat = Some subordinate ->
  let rpl := Replication_new main subordinate (rpl_options_of options) in
  check_main_binlog rpl = [] ->
  filter (fun e => is_setup e = true) (trace (run options)) = [Setup rpl_user 10]
  ∧ (setup rpl rpl_user 10 = false ->
     outcome (run options) = Raise (UtilError "Cannot setup replication."))
  ∧ (setup rpl rpl_user 10 = true -> outcome (run options) = Return tt).
Proof.
  intros Hconn Hm Hs rpl Hbinlog. unfold run.
  rewrite (setup_replication_resolved _ _ _ _ _ _ _ _ _ _ Hconn Hm Hs).
  fold rpl. rewrite Hbinlog, trace_after, outcome_after, filter_setup_app.
  rewrite (no_setup_filter _ (configured_preflight _ _ _ _ _ _)).
  unfold configuration.
  destruct (setup rpl rpl_user 10); simpl; (split; [|split]);
    try done; try by destruct (truthy test_db).
Qed.

(** C10: when the binary-logging check returns several findings, the
    run ends with a [UtilError] that carries the first of them; the
    lines printed are those of the validation phase, none of which comes
    from the binary-logging findings, and nothing is configured. *)
Theorem setup_replication_first_binlog_finding
    options servers main subordinate error0 errors :
  connect_servers main_vals subordinate_vals conn_options = Return servers ->
  servers !! 0%nat = Some main ->
  servers !! 1%nat = Some subordinate ->
  let rpl := Replication_new main subordinate (rpl_options_of options) in
  check_main_binlog rpl = error0 :: errors ->
  outcome (run options) = Raise (UtilError error0)
  ∧ printed (trace (run options)) = preflight_printed main subordinate rpl options
  ∧ configured (trace (run options)) = false.
Proof.
  intros Hconn Hm Hs rpl Hbinlog. unfold run.
  rewrite (setup_replication_resolved _ _ _ _ _ _ _ _ _ _ Hconn Hm Hs).
  fold rpl. rewrite Hbinlog, trace_after, outcome_after.
  rewrite printed_app, configured_app, printed_preflight, configured_preflight.
  split; [done|]. split; [apply app_nil_r|done].
Qed.

(** X14: [setup_replication] itself lets the verbosity decide only what
    is printed and what is handed to the class [Replication]: for a class
    whose methods return the same whatever the verbosity they are handed,
    two runs whose options differ only in verbosity make the same calls,
    get the same findings from every check and end the same way; only
    the printed lines may differ. *)
Theorem setup_replication_verbosity_independent options1 options2 :
  ignores_verbosity Replication_new ->
  same_but_verbosity options1 options2 ->
  report (trace (run options1)) = report (trace (run options2))
  ∧ outcome (run options1) = outcome (run options2)
  ∧ calls (trace (run options1)) = calls (trace (run options2)).
Proof.
  intros Hblind Hsame. unfold run.
  destruct (connect_servers main_vals subordinate_vals conn_options)
    as [servers|e] eqn:Hconn.
  2: { rewrite !setup_replication_unresolved by (by rewrite Hconn). done. }
  destruct (servers !! 0%nat) as [main|] eqn:Hm.
  2: { rewrite !setup_replication_unresolved by (rewrite Hconn; auto). done. }
  destruct (servers !! 1%nat) as [subordinate|] eqn:Hs.
  2: { rewrite !setup_replication_unresolved by (rewrite Hconn; auto). done. }
  rewrite !(setup_replication_resolved _ _ _ _ _ _ _ _ _ _ Hconn Hm Hs).
  assert (same_but_verbosity (rpl_options_of options1) (rpl_options_of options2))
    as Hrpl.
  { unfold same_but_verbosity, rpl_options_of. by rewrite !delete_insert_eq. }
  destruct (Hblind main subordinate _ _ _ _ Hrpl Hsame)
    as (Hids & Huuids & Hinnodb & Hengines & Hbinlog & Hsetup).
  rewrite !trace_after, !outcome_after, !report_app, !calls_app.
  rewrite !report_preflight, !calls_preflight.
  rewrite Hids, Huuids, Hinnodb, Hengines, Hbinlog.
  unfold configuration. rewrite Hsetup.
  done.
Qed.
End SetupReplication.

Section FindingsNameServers.
Import SetupRpl.





End FindingsNameServers.

Section ServerIdCollision.
Import SetupRpl.

Variable network : gmap string Server.
Variable Replication_new :
  Server -> Server -> gmap string value -> Replication.


End ServerIdCollision.

(** ** The start attempts of the configuration step *)

Section StartAttempts.
Import SetupRpl.

(** The attempts stay within the budget. *)
Lemma start_attempts_bounded running made budget :
  (made ≤ (start_attempts running made budget).2 ≤ made + budget)%nat.
Proof.
  revert made. induction budget as [|budget IH]; intros made; simpl.
  - lia.
  - destruct (running (S made)); simpl; [lia|].
    specialize (IH (S made)). lia.
Qed.

(** The attempts fail exactly when replication is found running after
    none of them. *)
Lemma start_attempts_fail running made budget :
  (start_attempts running made budget).1 = false
  <-> ∀ i, (made < i ≤ made + budget)%nat -> running i = false.
Proof.
  revert made. induction budget as [|budget IH]; intros made; simpl.
  - split; [|done]. intros _ i Hi. lia.
  - destruct (running (S made)) eqn:Hrun; simpl.
    + split; [done|]. intros Hall. rewrite Hall in Hrun by lia. done.
    + rewrite IH. split.
      * intros Hall i Hi. destruct (decide (i = S made)) as [->|Hne]; [done|].
        apply Hall. lia.
      * intros Hall i Hi. apply Hall. lia.
Qed.

Lemma spec_setup_within_budget subordinate num_tries :
  (spec_setup_attempts subordinate num_tries ≤ Z.to_nat num_tries)%nat.
Proof.
  unfold spec_setup_attempts.
  pose proof (start_attempts_bounded (rpl_running subordinate) 0
                (Z.to_nat num_tries)). lia.
Qed.

Lemma spec_setup_fails subordinate rpl_user num_tries :
  spec_setup subordinate rpl_user num_tries = false
  <-> ∀ i, (0 < i ≤ Z.to_nat num_tries)%nat -> rpl_running subordinate i = false.
Proof. unfold spec_setup. by rewrite start_attempts_fail. Qed.
End StartAttempts.

(** ** The properties at the example servers *)

Section SetupReplicationExamples.
Import SetupRpl.

Let connect := spec_connect_servers network.
Let A := "root:pw@hostA:3306".
Let B := "root:pw@hostB:3306".
Let C := "root:pw@hostC:3306".
Let D := "root:pw@hostD:3306".

(** [spec_Replication] does not look at the options at all. *)
Lemma spec_Replication_ignores_verbosity : ignores_verbosity spec_Replication.
Proof. by intros main subordinate o1 o2 p1 p2 _ _. Qed.

(** Main B has binary logging off: the run stops in the validation
    phase. *)
Lemma setup_replication_aborts_iff_binlog_findings_witness :
  connect B C conn_options = Return [server_B; server_C]
  ∧ aborted_in_preflight
      (setup_replication connect spec_Replication B C "rpl:pw" ∅ None tt) = true.
Proof.
  split; [reflexivity|].
  destruct (setup_replication_aborts_iff_binlog_findings
              connect spec_Replication B C "rpl:pw" None ∅
              [server_B; server_C] server_B server_C
              eq_refl eq_refl eq_refl) as [Habort _].
  apply Habort. discriminate.
Defined.

Lemma setup_replication_checks_in_order_witness :
  connect A C conn_options = Return [server_A; server_C]
  ∧ report (trace (setup_replication connect spec_Replication
                     A C "rpl:pw" ∅ None tt))
    = [(ServerIds, []);
       (ServerUuids, []);
       (InnodbCompatibility,
        ["WARNING: InnoDB versions differ between main and subordinate."]);
       (StorageEngines, []);
       (MainBinlog, [])].
Proof.
  split; [reflexivity|].
  apply (setup_replication_checks_in_order
           connect spec_Replication A C "rpl:pw" None ∅
           [server_A; server_C] server_A server_C eq_refl eq_refl eq_refl).
Defined.

(** Subordinate C never reaches a running state. *)
Lemma setup_replication_attempt_budget_witness :
  connect A C conn_options = Return [server_A; server_C]
  ∧ check_main_binlog (spec_Replication server_A server_C (rpl_options_of ∅)) = []
  ∧ outcome (setup_replication connect spec_Replication A C "rpl:pw" ∅ None tt)
    = Raise (UtilError "Cannot setup replication.").
Proof.
  split; [reflexivity|]. split; [reflexivity|].
  apply (setup_replication_attempt_budget
           connect spec_Replication A C "rpl:pw" None ∅
           [server_A; server_C] server_A server_C
           eq_refl eq_refl eq_refl eq_refl).
  reflexivity.
Defined.

Lemma setup_replication_first_binlog_finding_witness :
  connect B C conn_options = Return [server_B; server_C]
  ∧ check_main_binlog (two_findings_Replication server_B server_C (rpl_options_of ∅))
    = ["Main must have binary logging turned on.";
       "Main must have a binary log file."]
  ∧ outcome (setup_replication connect two_findings_Replication
               B C "rpl:pw" ∅ None tt)
    = Raise (UtilError "Main must have binary logging turned on.").
Proof.
  split; [reflexivity|]. split; [reflexivity|].
  apply (setup_replication_first_binlog_finding
           connect two_findings_Replication B C "rpl:pw" None ∅
           [server_B; server_C] server_B server_C _ _
           eq_refl eq_refl eq_refl eq_refl).
Defined.

Lemma setup_replication_verbosity_independent_witness :
  same_but_verbosity ∅ (<["verbosity" := VInt 3]> ∅)
  ∧ outcome (setup_replication connect spec_Replication A D "rpl:pw" ∅ None tt)
    = outcome (setup_replication connect spec_Replication A D "rpl:pw"
                 (<["verbosity" := VInt 3]> ∅) None tt).
Proof.
  assert (same_but_verbosity ∅ (<["verbosity" := VInt 3]> ∅)) as Hsame
    by reflexivity.
  split; [exact Hsame|].
  apply (setup_replication_verbosity_independent
           connect spec_Replication A D "rpl:pw" None _ _
           spec_Replication_ignores_verbosity Hsame).
Defined.

End SetupReplicationExamples.

(** ** Properties of [start_ms_replication] *)

Section StartMsReplication.
Import StartMs.

Variable ReplicationMultiSource_new :
  gmap string value -> list (gmap string value) -> gmap string value ->
  ReplicationMultiSource.
Variable subordinate_vals : gmap string value.
Variable mains_vals : list (gmap string value).

Let run (options : gmap string value) :=
  start_ms_replication ReplicationMultiSource_new
    subordinate_vals mains_vals options tt.
Let rplms (options : gmap string value) :=
  ReplicationMultiSource_new subordinate_vals mains_vals options.

(** C9: [start_ms_replication] dispatches on the ["daemon"] option.
    ["start"] calls [start()] with the default [detach_process], which
    is the detached mode; ["stop"] calls [stop()]; ["restart"] calls
    [restart()]; these three end as the method called ends.  For any
    other value, an absent one included, it calls
    [start(detach_process=False)], the foreground mode; if that call is
    interrupted from the keyboard, [stop_replication()] is called and
    the run ends as that call ends, so the interruption does not reach
    the caller; otherwise the run ends as the foreground start ends. *)
Theorem start_ms_replication_dispatch options :
  let daemon := default VNone (options !! "daemon") in
  (daemon = VStr "start" ->
     run options = ([Start None], tt, start (rplms options) None)
     ∧ detached None = true)
  ∧ (daemon = VStr "stop" ->
     run options = ([Stop], tt, stop (rplms options)))
  ∧ (daemon = VStr "restart" ->
     run options = ([Restart], tt, restart (rplms options)))
  ∧ (daemon ≠ VStr "start" -> daemon ≠ VStr "stop" -> daemon ≠ VStr "restart" ->
     detached (Some false) = false
     ∧ run options =
         match start (rplms options) (Some false) with
         | Raise KeyboardInterrupt =>
             ([Start (Some false); StopReplication], tt,
              stop_replication (rplms options))
         | r => ([Start (Some false)], tt, r)
         end).
Proof.
  intros daemon. unfold run, start_ms_replication. fold daemon.
  fold (rplms options).
  assert (∀ e r, call e r tt = ([e], tt, r)) as Hcall.
  { intros e [[]|x]; reflexivity. }
  split; [|split; [|split]].
  - intros ->. simpl. split; [apply Hcall|done].
  - intros ->. simpl. apply Hcall.
  - intros ->. simpl. apply Hcall.
  - intros H1 H2 H3. split; [done|].
    assert (∀ s, daemon ≠ VStr s -> eq_str daemon s = false) as Hne.
    { intros s Hs. destruct daemon as [| | |t]; try done. simpl.
      apply bool_decide_eq_false. congruence. }
    rewrite !Hne by done.
    unfold try_except. rewrite Hcall.
    destruct (start (rplms options) (Some false)) as [[]|x]; [done|].
    destruct x; try done. simpl. by rewrite Hcall.
Qed.
End StartMsReplication.

Section StartMsReplicationExamples.
Import StartMs.

(** With no ["daemon"] option the daemon runs in the foreground; the
    keyboard interruption ends in a call of [stop_replication()], and
    the run returns. *)
Lemma start_ms_replication_dispatch_witness :
  default VNone ((∅ : gmap string value) !! "daemon") ≠ VStr "start"
  ∧ start_ms_replication (fun _ _ _ => interrupted_daemon) ∅ [] ∅ tt
    = ([Start (Some false); StopReplication], tt, Return tt).
Proof.
  split; [discriminate|].
  destruct (start_ms_replication_dispatch
              (fun _ _ _ => interrupted_daemon) ∅ [] ∅)
    as (_ & _ & _ & Hforeground).
  destruct Hforeground as [_ Hrun]; [discriminate..|].
  exact Hrun.
Defined.
End StartMsReplicationExamples.

(** ** GTID sets: subtraction and addition of ranges *)

Section GtidFacts.
Import Gtid.
Implicit Types (n : Z) (r x : Z * Z) (l xs : list (Z * Z)).
Implicit Types (S E : gmap string (list (Z * Z))).

Lemma in_range_true n r : in_range n r = true <-> r.1 ≤ n ∧ n ≤ r.2.
Proof. unfold in_range. by rewrite bool_decide_eq_true. Qed.

Lemma in_ranges_true n l :
  in_ranges n l = true <-> ∃ r, r ∈ l ∧ r.1 ≤ n ∧ n ≤ r.2.
Proof.
  unfold in_ranges. rewrite existsb_exists. split.
  - intros (r & Hin & Hr). exists r. by rewrite list_elem_of_In, <- in_range_true.
  - intros (r & Hin & Hr). exists r. by rewrite <- list_elem_of_In, in_range_true.
Qed.

Lemma in_ranges_cons n x l :
  in_ranges n (x :: l) = in_range n x || in_ranges n l.
Proof. done. Qed.

Lemma in_ranges_app n l l' :
  in_ranges n (l ++ l') = in_ranges n l || in_ranges n l'.
Proof. apply existsb_app. Qed.

Lemma in_range_minus n r x :
  in_ranges n (range_minus r x) = in_range n r && negb (in_range n x).
Proof.
  destruct r as [a b], x as [c d].
  unfold range_minus, in_ranges, in_range; simpl.
  repeat case_bool_decide; simpl; repeat case_bool_decide; simpl;
    try reflexivity; lia.
Qed.

Lemma in_ranges_minus_range n l x :
  in_ranges n (ranges_minus_range l x) = in_ranges n l && negb (in_range n x).
Proof.
  induction l as [|r l IH]; [done|].
  unfold ranges_minus_range in *. simpl.
  rewrite in_ranges_app, in_range_minus, IH.
  by destruct (in_range n r), (in_range n x), (in_ranges n l).
Qed.

Lemma in_ranges_minus n l xs :
  in_ranges n (ranges_minus l xs) = in_ranges n l && negb (in_ranges n xs).
Proof.
  revert l. induction xs as [|x xs IH]; intros l.
  - simpl. by rewrite andb_true_r.
  - unfold ranges_minus in *. simpl. rewrite IH, in_ranges_minus_range.
    by destruct (in_ranges n l), (in_range n x), (in_ranges n xs).
Qed.

(** The set difference holds the GTIDs of [S] that are not in [E]. *)
Lemma member_subtract S E uuid n :
  member (subtract S E) uuid n = member S uuid n && negb (member E uuid n).
Proof.
  unfold member, subtract, ranges_of at 1 3. rewrite map_lookup_imap.
  destruct (S !! uuid) as [l|]; [|done]. simpl.
  rewrite <- in_ranges_minus.
  by destruct (ranges_minus l (ranges_of E uuid)).
Qed.

Lemma valid_range_minus r x : valid_ranges (range_minus r x).
Proof.
  unfold range_minus, valid_ranges.
  repeat case_bool_decide; simpl; repeat constructor; simpl; lia.
Qed.

Lemma valid_ranges_minus_range l x : valid_ranges (ranges_minus_range l x).
Proof.
  induction l as [|r l IH]; [constructor|].
  unfold ranges_minus_range, valid_ranges in *. simpl.
  apply Forall_app. split; [apply valid_range_minus|apply IH].
Qed.

Lemma valid_ranges_minus l xs :
  valid_ranges l -> valid_ranges (ranges_minus l xs).
Proof.
  revert l. induction xs as [|x xs IH]; intros l Hl; [done|].
  apply IH, valid_ranges_minus_range.
Qed.

(** Valid ranges that hold no number: there is no range. *)
Lemma valid_ranges_no_member l :
  valid_ranges l -> (∀ n, in_ranges n l = false) -> l = [].
Proof.
  intros Hl Hno. destruct l as [|[a b] l]; [done|].
  apply Forall_cons in Hl as [Hab _]. simpl in Hab.
  specialize (Hno a). unfold in_ranges in Hno. simpl in Hno.
  apply orb_false_elim in Hno as [Hno _].
  unfold in_range in Hno. apply bool_decide_eq_false in Hno. simpl in Hno. lia.
Qed.

Lemma valid_subtract S E : valid S -> valid (subtract S E).
Proof.
  intros HS uuid d. unfold subtract. rewrite map_lookup_imap.
  destruct (S !! uuid) as [l|] eqn:Hl; [|done]. simpl.
  intros Hd. assert (d = ranges_minus l (ranges_of E uuid)) as ->.
  { destruct (ranges_minus l (ranges_of E uuid)); congruence. }
  apply valid_ranges_minus. by apply (HS uuid).
Qed.

(** The difference is the empty map exactly when every GTID of [S] is
    in [E]. *)
Lemma subtract_empty S E :
  valid S ->
  subtract S E = ∅ <->
  ∀ uuid n, member S uuid n = true -> member E uuid n = true.
Proof.
  intros HS. split.
  - intros Hempty uuid n Hin.
    pose proof (member_subtract S E uuid n) as Hm.
    rewrite Hempty, Hin in Hm. unfold member at 1, ranges_of in Hm.
    rewrite lookup_empty in Hm. simpl in Hm.
    by destruct (member E uuid n).
  - intros Hsub. apply map_empty. intros uuid.
    destruct (subtract S E !! uuid) as [d|] eqn:Hd; [|done].
    assert (d = []) as ->.
    { apply valid_ranges_no_member.
      - by apply (valid_subtract S E HS uuid).
      - intros n. pose proof (member_subtract S E uuid n) as Hm.
        unfold member at 1, ranges_of in Hm. rewrite Hd in Hm. simpl in Hm.
        rewrite Hm. destruct (member S uuid n) eqn:Hin; [|done].
        by rewrite (Hsub uuid n Hin). }
    unfold subtract in Hd. rewrite map_lookup_imap in Hd.
    destruct (S !! uuid) as [l|]; [|done]. simpl in Hd.
    by destruct (ranges_minus l (ranges_of E uuid)).
Qed.

Lemma in_ranges_add n r l :
  r.1 ≤ r.2 -> valid_ranges l ->
  in_ranges n (ranges_add r l) = in_range n r || in_ranges n l.
Proof.
  revert r. induction l as [|x l IH]; intros r Hr Hl.
  - done.
  - apply Forall_cons in Hl as [Hx Hl]. cbn [ranges_add].
    repeat case_bool_decide.
    + done.
    + rewrite !in_ranges_cons, (IH r Hr Hl).
      by destruct (in_range n x), (in_range n r).
    + rewrite IH, in_ranges_cons, orb_assoc by (simpl; lia || done).
      f_equal.
      destruct r as [a b], x as [c d]. unfold in_range. simpl in *.
      repeat case_bool_decide; simpl; try reflexivity; lia.
Qed.

Lemma valid_ranges_add r l :
  r.1 ≤ r.2 -> valid_ranges l -> valid_ranges (ranges_add r l).
Proof.
  revert r. induction l as [|x l IH]; intros r Hr Hl.
  - by repeat constructor.
  - pose proof Hl as Hxl. apply Forall_cons in Hl as [Hx Hl]. simpl.
    repeat case_bool_decide.
    + by constructor.
    + constructor; [done|by apply IH].
    + apply IH; [simpl; lia|done].
Qed.

(** *** The ranges stay sorted and apart *)

Lemma ordered_from_weaken lo lo' l :
  lo' ≤ lo -> ordered_from lo l -> ordered_from lo' l.
Proof. destruct l as [|r l]; simpl; [done|]. intros Hlo (H1 & H2 & H3). repeat split; [lia|done..]. Qed.

Lemma ordered_from_valid lo l : ordered_from lo l -> valid_ranges l.
Proof.
  revert lo. induction l as [|r l IH]; intros lo; simpl; [constructor|].
  intros (_ & Hr & Hl). constructor; [done|by eapply IH].
Qed.

Lemma well_formed_valid S : well_formed S -> valid S.
Proof.
  intros HS uuid l Hl. destruct (HS uuid l Hl) as [lo Hlo].
  by eapply ordered_from_valid.
Qed.

Lemma ordered_from_app lo hi l1 l2 :
  lo ≤ hi ->
  ordered_from lo l1 -> Forall (fun r => r.2 < hi) l1 ->
  ordered_from hi l2 ->
  ordered_from lo (l1 ++ l2).
Proof.
  revert lo. induction l1 as [|r l1 IH]; intros lo Hlo H1 Hends H2; simpl.
  - by eapply ordered_from_weaken.
  - destruct H1 as (Hr1 & Hr & H1). apply Forall_cons in Hends as [Hend Hends].
    repeat split; [done..|]. apply IH; [lia|done..].
Qed.

Lemma range_minus_ordered r x :
  x.1 ≤ x.2 + 1 ->
  ordered_from r.1 (range_minus r x)
  ∧ Forall (fun p => p.2 < r.2 + 1) (range_minus r x).
Proof.
  intros Hx. destruct r as [a b], x as [c d]. unfold range_minus. simpl in *.
  repeat case_bool_decide; simpl; repeat split; repeat constructor; simpl; lia.
Qed.

Lemma ranges_minus_range_ordered lo l x :
  x.1 ≤ x.2 + 1 -> ordered_from lo l -> ordered_from lo (ranges_minus_range l x).
Proof.
  intros Hx. revert lo. induction l as [|r l IH]; intros lo; [done|].
  intros (Hlo & Hr & Hl). unfold ranges_minus_range. simpl.
  destruct (range_minus_ordered r x Hx) as [Hord Hends].
  apply ordered_from_app with (hi := r.2 + 1); [lia| |done|by apply IH].
  by eapply ordered_from_weaken.
Qed.

Lemma ranges_minus_ordered lo l xs :
  valid_ranges xs -> ordered_from lo l -> ordered_from lo (ranges_minus l xs).
Proof.
  intros Hxs. revert l. induction Hxs as [|x xs Hx Hxs IH]; intros l Hl; [done|].
  apply IH, ranges_minus_range_ordered; [lia|done].
Qed.

(** The difference of a well-formed set and a valid one is well formed. *)
Lemma well_formed_subtract S E :
  well_formed S -> valid E -> well_formed (subtract S E).
Proof.
  intros HS HE uuid d. unfold subtract. rewrite map_lookup_imap.
  destruct (S !! uuid) as [l|] eqn:Hl; [|done]. simpl.
  intros Hd. assert (d = ranges_minus l (ranges_of E uuid)) as ->.
  { destruct (ranges_minus l (ranges_of E uuid)); congruence. }
  destruct (HS uuid l Hl) as [lo Hlo]. exists lo.
  apply ranges_minus_ordered; [|done].
  unfold ranges_of. destruct (E !! uuid) as [xs|] eqn:Hxs; [|constructor].
  by apply (HE uuid).
Qed.

Lemma ranges_add_ordered lo r l :
  r.1 ≤ r.2 -> ordered_from lo l ->
  ordered_from (Z.min lo r.1) (ranges_add r l).
Proof.
  revert lo r. induction l as [|x l IH]; intros lo r Hr Hl.
  - simpl. repeat split; [lia|done].
  - destruct Hl as (Hlo & Hx & Hl). cbn [ranges_add].
    repeat case_bool_decide.
    + simpl. repeat split; [lia|done|lia|done..].
    + simpl. split; [lia|]. split; [done|].
      eapply ordered_from_weaken; [|apply (IH (x.2 + 1) r Hr Hl)]. lia.
    + eapply ordered_from_weaken; [|apply (IH (x.2 + 1)); [simpl; lia|done]].
      simpl. lia.
Qed.

(** A range added to a well-formed set leaves it well formed. *)
Lemma well_formed_add_range E uuid r :
  r.1 ≤ r.2 -> well_formed E -> well_formed (add_range uuid r E).
Proof.
  intros Hr HE. unfold add_range. apply map_Forall_insert_2; [|done].
  unfold ranges_of. destruct (E !! uuid) as [l|] eqn:Hl; simpl.
  - destruct (HE uuid l Hl) as [lo Hlo]. eexists. by apply ranges_add_ordered.
  - exists r.1. simpl. repeat split; [lia|done].
Qed.

Lemma valid_ranges_of E uuid : valid E -> valid_ranges (ranges_of E uuid).
Proof.
  intros HE. unfold ranges_of.
  destruct (E !! uuid) as [l|] eqn:Hl; [by apply (HE uuid)|constructor].
Qed.

Lemma member_add_range E uuid r uuid' n :
  r.1 ≤ r.2 -> valid E ->
  member (add_range uuid r E) uuid' n
  = (bool_decide (uuid' = uuid) && in_range n r) || member E uuid' n.
Proof.
  intros Hr HE. unfold member, add_range, ranges_of at 1.
  case_bool_decide as Hu.
  - subst. rewrite lookup_insert_eq. simpl.
    apply in_ranges_add; [done|by apply valid_ranges_of].
  - by rewrite lookup_insert_ne.
Qed.

Lemma valid_add_range E uuid r :
  r.1 ≤ r.2 -> valid E -> valid (add_range uuid r E).
Proof.
  intros Hr HE. unfold add_range. apply map_Forall_insert_2; [|done].
  apply valid_ranges_add; [done|by apply valid_ranges_of].
Qed.
End GtidFacts.

(** ** The skip engine on one subordinate *)

Section SkipOneSubordinate.
Import Gtid SlaveTrx.
Implicit Types (sub : Subordinate) (request : gmap string (list (Z * Z))).

Lemma elem_of_to_ranges (S : gmap string (list (Z * Z))) uuid r :
  (uuid, r) ∈ to_ranges S <-> ∃ l, S !! uuid = Some l ∧ r ∈ l.
Proof.
  unfold to_ranges. rewrite list_elem_of_In, in_flat_map. split.
  - intros ([u l] & Hul & Hin). apply list_elem_of_In in Hin, Hul.
    apply list_elem_of_fmap in Hin as (x & [= -> ->] & Hx).
    apply elem_of_map_to_list in Hul. eauto.
  - intros (l & Hl & Hr). exists (uuid, l). split.
    + by apply list_elem_of_In, elem_of_map_to_list.
    + apply list_elem_of_In, list_elem_of_fmap. eauto.
Qed.

Lemma valid_to_ranges (S : gmap string (list (Z * Z))) :
  valid S -> Forall (fun ur => ur.2.1 ≤ ur.2.2) (to_ranges S).
Proof.
  intros HS. apply Forall_forall. intros [uuid r] Hin.
  apply elem_of_to_ranges in Hin as (l & Hl & Hr).
  specialize (HS uuid l Hl). simpl in HS.
  unfold valid_ranges in HS. rewrite Forall_forall in HS. by apply HS.
Qed.

Lemma member_to_ranges (S : gmap string (list (Z * Z))) uuid n :
  member S uuid n = true ->
  ∃ r, (uuid, r) ∈ to_ranges S ∧ in_range n r = true.
Proof.
  unfold member, ranges_of. intros Hin.
  destruct (S !! uuid) as [l|] eqn:Hl; [|done]. simpl in Hin.
  apply in_ranges_true in Hin as (r & Hr & Hn).
  exists r. split; [apply elem_of_to_ranges; eauto|by apply in_range_true].
Qed.

(** The injection loop returns; the executed set stays valid and only
    grows, and when every range was injected it holds them all. *)
Lemma inject_spec conn todo sub :
  valid (executed sub) ->
  Forall (fun ur => ur.2.1 ≤ ur.2.2) todo ->
  ∃ t sub' ok,
    inject conn todo sub = (t, sub', Return ok)
    ∧ valid (executed sub')
    ∧ (∀ uuid n, member (executed sub) uuid n = true ->
                  member (executed sub') uuid n = true)
    ∧ (ok = true ->
       ∀ uuid r n, (uuid, r) ∈ todo -> in_range n r = true ->
                   member (executed sub') uuid n = true).
Proof.
  revert sub. induction todo as [|[uuid r] todo IH]; intros sub Hsub Htodo.
  - exists [], sub, true. repeat split; try done.
    intros _ uuid r n Hin. by apply elem_of_nil in Hin.
  - apply Forall_cons in Htodo as [Hr Htodo]. simpl in Hr.
    cbn [inject]. rewrite bind_get.
    destruct (refuses sub uuid r) eqn:Hrefuses.
    + exists [InjectFailed conn uuid r], sub, false.
      repeat split; try done.
    + rewrite bind_put, bind_emit.
      set (sub1 := with_executed sub (add_range uuid r (executed sub))).
      destruct (IH sub1) as (t & sub' & ok & Hrun & Hvalid & Hgrow & Hall).
      { by apply valid_add_range. }
      { done. }
      rewrite Hrun. exists (Injected conn uuid r :: t), sub', ok.
      assert (∀ u n, member (executed sub1) u n
                     = (bool_decide (u = uuid) && in_range n r)
                       || member (executed sub) u n) as Hsub1.
      { intros u n. by apply member_add_range. }
      repeat split; try done.
      * intros u n Hin. apply Hgrow. rewrite Hsub1, Hin. apply orb_true_r.
      * intros Hok u x n Hin Hn.
        apply elem_of_cons in Hin as [[= -> ->]|Hin]; [|by eapply Hall].
        apply Hgrow. rewrite Hsub1, Hn, bool_decide_eq_true_2 by done. done.
Qed.

(** A dry run on a subordinate reports and leaves it as it was. *)
Lemma skip_trx_dry conn request sub :
  skip_trx conn request true sub
  = ([FetchExecuted conn;
      if bool_decide (subtract request (executed sub) = ∅)
      then NothingToSkip conn
      else ToSkip conn (subtract request (executed sub))],
     sub, Return true).
Proof.
  unfold skip_trx. rewrite bind_get, bind_emit.
  case_bool_decide; by rewrite bind_emit.
Qed.

(** With nothing left to skip, a run reports so and leaves the
    subordinate as it was. *)
Lemma skip_trx_nothing conn request dry sub :
  subtract request (executed sub) = ∅ ->
  skip_trx conn request dry sub
  = ([FetchExecuted conn; NothingToSkip conn], sub, Return true).
Proof.
  intros Hempty. unfold skip_trx. rewrite bind_get, bind_emit.
  rewrite bool_decide_eq_true_2 by done. by rewrite bind_emit.
Qed.

Lemma skip_trx_spec conn request dry sub :
  valid request ->
  valid (executed sub) ->
  ∃ t sub' ok,
    skip_trx conn request dry sub = (t, sub', Return ok)
    ∧ valid (executed sub')
    ∧ (∀ uuid n, member (executed sub) uuid n = true ->
                  member (executed sub') uuid n = true)
    ∧ (ok = true -> dry = false -> subtract request (executed sub') = ∅).
Proof.
  intros Hrequest Hsub.
  destruct (decide (subtract request (executed sub) = ∅)) as [Hempty|Hleft].
  { rewrite skip_trx_nothing by done. exists [FetchExecuted conn; NothingToSkip conn], sub, true. done. }
  destruct dry.
  { rewrite skip_trx_dry. eexists _, sub, true. done. }
  unfold skip_trx. rewrite bind_get, bind_emit.
  rewrite bool_decide_eq_false_2 by done. rewrite bind_emit.
  destruct (inject_spec conn (to_ranges (subtract request (executed sub))) sub)
    as (t & sub' & ok & Hrun & Hvalid & Hgrow & Hall).
  { done. }
  { by apply valid_to_ranges, valid_subtract. }
  erewrite bind_Return by exact Hrun.
  exists ([FetchExecuted conn; ToSkip conn (subtract request (executed sub))]
          ++ t ++ (if ok then [] else [PartiallySkipped conn])), sub', ok.
  split.
  { destruct ok; simpl.
    - rewrite bind_ret. reflexivity.
    - rewrite bind_emit. reflexivity. }
  repeat split; try done.
  intros -> _. apply subtract_empty; [done|].
  intros uuid n Hin.
  destruct (member (executed sub) uuid n) eqn:Hexec; [by apply Hgrow|].
  assert (member (subtract request (executed sub)) uuid n = true) as Hskip.
  { by rewrite member_subtract, Hin, Hexec. }
  apply member_to_ranges in Hskip as (r & Hr & Hn).
  by eapply Hall.
Qed.
End SkipOneSubordinate.

(** ** The skip engine on a list of subordinates *)

Section SkipEngine.
Import Gtid SlaveTrx.
Implicit Types (w : gmap string Subordinate).
Implicit Types (request : gmap string (list (Z * Z))).

Lemma world_le_refl w : world_le w w.
Proof. intros conn sub Hsub. eauto. Qed.

Lemma world_le_trans w1 w2 w3 : world_le w1 w2 -> world_le w2 w3 -> world_le w1 w3.
Proof.
  intros H12 H23 conn sub1 Hsub1.
  destruct (H12 conn sub1 Hsub1) as (sub2 & Hsub2 & Hle12).
  destruct (H23 conn sub2 Hsub2) as (sub3 & Hsub3 & Hle23).
  exists sub3. split; [done|]. auto.
Qed.

Lemma done_on_le request w w' conn :
  valid request -> world_le w w' ->
  done_on request w conn -> done_on request w' conn.
Proof.
  intros Hrequest Hle (sub & Hsub & Hempty).
  destruct (Hle conn sub Hsub) as (sub' & Hsub' & Hgrow).
  exists sub'. split; [done|].
  apply subtract_empty; [done|]. intros uuid n Hin.
  apply Hgrow. revert uuid n Hin. by apply subtract_empty.
Qed.

Lemma skip_subordinate_dry conn request w :
  skip_subordinate conn request true w
  = (dry_report request w conn, w, Return (reachable w conn)).
Proof.
  unfold skip_subordinate, dry_report, reachable.
  destruct (w !! conn) as [sub|] eqn:Hsub; [|done].
  rewrite skip_trx_dry, insert_id by done.
  reflexivity.
Qed.

Lemma skip_each_dry conns request w :
  skip_each conns request true w
  = (flat_map (dry_report request w) conns, w,
     Return (forallb (reachable w) conns)).
Proof.
  induction conns as [|conn conns IH]; [done|].
  cbn [skip_each]. erewrite bind_Return by apply skip_subordinate_dry.
  erewrite bind_Return by apply IH.
  unfold after, ret. simpl. by rewrite app_nil_r.
Qed.

Lemma skip_subordinate_nothing conn request dry w :
  done_on request w conn ->
  skip_subordinate conn request dry w
  = ([FetchExecuted conn; NothingToSkip conn], w, Return true).
Proof.
  intros (sub & Hsub & Hempty). unfold skip_subordinate.
  by rewrite Hsub, skip_trx_nothing, insert_id.
Qed.

Lemma skip_each_nothing conns request dry w :
  (∀ conn, conn ∈ conns -> done_on request w conn) ->
  skip_each conns request dry w
  = (flat_map (fun conn => [FetchExecuted conn; NothingToSkip conn]) conns,
     w, Return true).
Proof.
  induction conns as [|conn conns IH]; intros Hdone; [done|].
  cbn [skip_each].
  erewrite bind_Return by (apply skip_subordinate_nothing, Hdone; left).
  erewrite bind_Return by (apply IH; intros c Hc; apply Hdone; by right).
  unfold after, ret. simpl. by rewrite app_nil_r.
Qed.

Lemma skip_subordinate_spec conn request dry w :
  valid request -> valid_world w ->
  ∃ t w' ok,
    skip_subordinate conn request dry w = (t, w', Return ok)
    ∧ valid_world w' ∧ world_le w w'
    ∧ (ok = true -> dry = false -> done_on request w' conn).
Proof.
  intros Hrequest Hw. unfold skip_subordinate.
  destruct (w !! conn) as [sub|] eqn:Hsub.
  - destruct (skip_trx_spec conn request dry sub Hrequest)
      as (t & sub' & ok & Hrun & Hvalid & Hgrow & Hdone).
    { by apply (Hw conn). }
    rewrite Hrun. exists t, (<[conn := sub']> w), ok.
    split; [done|]. split; [by apply map_Forall_insert_2|]. split.
    + intros c s Hc. destruct (decide (c = conn)) as [->|Hne].
      * exists sub'. rewrite lookup_insert_eq. split; [done|].
        rewrite Hsub in Hc. by injection Hc as <-.
      * exists s. rewrite lookup_insert_ne by done. done.
    + intros Hok Hdry. exists sub'. rewrite lookup_insert_eq. auto.
  - exists [ConnectFailed conn], w, false.
    split; [done|]. split; [done|]. split; [apply world_le_refl|done].
Qed.

Lemma skip_each_spec conns request dry w :
  valid request -> valid_world w ->
  ∃ t w' ok,
    skip_each conns request dry w = (t, w', Return ok)
    ∧ valid_world w' ∧ world_le w w'
    ∧ (ok = true -> dry = false ->
       ∀ conn, conn ∈ conns -> done_on request w' conn).
Proof.
  intros Hrequest. revert w.
  induction conns as [|conn conns IH]; intros w Hw.
  - exists [], w, true. split; [done|]. split; [done|].
    split; [apply world_le_refl|]. intros _ _ c Hc. by apply elem_of_nil in Hc.
  - destruct (skip_subordinate_spec conn request dry w Hrequest Hw)
      as (t1 & w1 & ok1 & Hrun1 & Hw1 & Hle1 & Hdone1).
    destruct (IH w1 Hw1) as (t2 & w2 & ok2 & Hrun2 & Hw2 & Hle2 & Hdone2).
    exists (t1 ++ t2), w2, (ok1 && ok2).
    split.
    { cbn [skip_each]. erewrite bind_Return by exact Hrun1.
      erewrite bind_Return by exact Hrun2.
      unfold after, ret. simpl. by rewrite app_nil_r. }
    split; [done|]. split; [by eapply world_le_trans|].
    intros [-> ->]%andb_true_iff Hdry c Hc.
    apply elem_of_cons in Hc as [->|Hc]; [|by apply Hdone2].
    eapply done_on_le; [done|exact Hle2|by apply Hdone1].
Qed.
End SkipEngine.

(** ** Properties of the transaction-skipping utility *)

Section SlaveTrxProperties.
Import Gtid SlaveTrx.

Variable parse_gtid_set : string -> option (gmap string (list (Z * Z))).
Variable parse_topology_connections : Opt -> result (list string).
Variable PARSE_ERR_OPTS_REQ : string -> string.

Let skip := skip_subordinates_trx parse_gtid_set.
Let script := main_block parse_gtid_set parse_topology_connections
                PARSE_ERR_OPTS_REQ.

Lemma dry_report_no_injection request w conns :
  existsb is_injection (flat_map (dry_report request w) conns) = false.
Proof.
  induction conns as [|conn conns IH]; [done|].
  simpl. rewrite existsb_app, IH, orb_false_r.
  unfold dry_report. destruct (w !! conn); [|done].
  by case_bool_decide.
Qed.

(** The engine in dry-run mode: the state is kept and nothing is
    injected. *)
Lemma skip_dry_preserved gtid_set conns options w :
  dry_run_of options = true ->
  preserved is_injection (skip gtid_set conns options) w.
Proof.
  intros Hdry. unfold skip, skip_subordinates_trx. rewrite Hdry.
  destruct (parse_gtid_set gtid_set) as [request|]; [|done].
  unfold preserved.
  erewrite bind_Return by apply skip_each_dry.
  split.
  - by destruct (forallb (reachable w) conns).
  - unfold after, trace. simpl. rewrite existsb_app, dry_report_no_injection.
    by destruct (forallb (reachable w) conns).
Qed.

(** C3: in dry-run mode the skip engine leaves every subordinate as it
    was, whatever the request: the world after the run is the world
    before it, no injection is attempted, and the run reports, for each
    subordinate in turn, the set it would skip there.  The same holds
    of the whole utility run with [--dryrun]. *)
Theorem dry_run_changes_nothing :
  (∀ gtid_set conns options w,
     dry_run_of options = true ->
     let out := skip gtid_set conns options w in
     final out = w
     ∧ existsb is_injection (trace out) = false
     ∧ ∀ request, parse_gtid_set gtid_set = Some request ->
                  trace out = flat_map (dry_report request w) conns)
  ∧ (∀ opt args w,
       dry_run opt = true ->
       final (script opt args w) = w
       ∧ existsb is_injection (trace (script opt args w)) = false).
Proof.
  split.
  - intros gtid_set conns options w Hdry out.
    destruct (skip_dry_preserved gtid_set conns options w Hdry) as [Hw Ht].
    split; [done|]. split; [done|].
    intros request Hparse. unfold out, skip, skip_subordinates_trx.
    rewrite Hparse, Hdry. erewrite bind_Return by apply skip_each_dry.
    unfold after, trace. simpl.
    destruct (forallb (reachable w) conns); apply app_nil_r.
  - intros opt args w Hdry. unfold script, main_block.
    assert (∀ A err, preserved is_injection (@report_and_exit A err) w) as Hexit.
    { intros A err. apply preserved_bind; [by apply preserved_emit|].
      intros _. apply preserved_raise. }
    assert (∀ msg, preserved is_injection (@parser_error unit msg) w) as Herror.
    { intros msg. apply preserved_bind; [by apply preserved_emit|].
      intros _. apply preserved_raise. }
    apply preserved_bind; [by apply preserved_emit|]. intros _.
    apply preserved_bind.
    { destruct (negb (truthy (gtid_set opt))); [apply Herror|apply preserved_ret]. }
    intros _. apply preserved_bind.
    { destruct (negb (truthy (subordinates opt))); [apply Herror|apply preserved_ret]. }
    intros _. apply preserved_bind.
    { unfold check_gtid_set_format.
      destruct (parse_gtid_set _); [apply preserved_ret|apply preserved_raise]. }
    intros _. apply preserved_bind.
    { apply preserved_try_except; [|apply Hexit].
      apply preserved_bind; [by apply preserved_emit|]. intros _.
      destruct (parse_topology_connections _);
        [apply preserved_ret|apply preserved_raise]. }
    intros subordinates_val.
    apply preserved_try_except; [|apply Hexit].
    apply skip_dry_preserved.
    unfold dry_run_of. rewrite lookup_insert_ne by done.
    by rewrite lookup_insert_eq.
Qed.

(** C2: the set the engine computes for a subordinate is the set
    difference of the request and the subordinate's executed set: it
    holds exactly the GTIDs of the request that the subordinate has not
    executed, so it shares no GTID with the executed set and, together
    with it, covers the request (for every source UUID, those of the
    subordinate included); it is what a run reports first for the
    subordinate.  After a run that was not a dry run and ended without
    error, a second run with the same request finds nothing to skip on
    any subordinate, changes nothing and returns. *)
Theorem skip_computes_set_difference :
  (∀ request executed uuid n,
     member (subtract request executed) uuid n
     = member request uuid n && negb (member executed uuid n))
  ∧ (∀ request executed uuid n,
       member executed uuid n && member (subtract request executed) uuid n
       = false)
  ∧ (∀ request executed uuid n,
       member request uuid n = true ->
       member (subtract request executed) uuid n || member executed uuid n
       = true)
  ∧ (∀ conn request dry sub,
       let toSkip := subtract request (executed sub) in
       ∃ rest,
         trace (skip_trx conn request dry sub)
         = FetchExecuted conn
           :: (if bool_decide (toSkip = ∅) then NothingToSkip conn
               else ToSkip conn toSkip)
           :: rest)
  ∧ (∀ gtid_set request conns options options' w,
       parse_gtid_set gtid_set = Some request ->
       valid request ->
       valid_world w ->
       dry_run_of options = false ->
       outcome (skip gtid_set conns options w) = Return tt ->
       skip gtid_set conns options' (final (skip gtid_set conns options w))
       = (flat_map (fun conn => [FetchExecuted conn; NothingToSkip conn]) conns,
          final (skip gtid_set conns options w), Return tt)).
Proof.
  split; [apply member_subtract|].
  split.
  { intros request executed uuid n. rewrite member_subtract.
    by destruct (member executed uuid n), (member request uuid n). }
  split.
  { intros request executed uuid n Hin. rewrite member_subtract, Hin.
    by destruct (member executed uuid n). }
  split.
  { intros conn request dry sub toSkip. unfold skip_trx.
    rewrite bind_get, bind_emit. fold toSkip.
    case_bool_decide; rewrite bind_emit; unfold after, trace; simpl; eauto. }
  intros gtid_set request conns options options' w
    Hparse Hrequest Hw Hdry Hok.
  unfold skip, skip_subordinates_trx in *. rewrite Hparse in *.
  destruct (skip_each_spec conns request (dry_run_of options) w Hrequest Hw)
    as (t & w' & ok & Hrun & Hw' & Hle & Hdone).
  rewrite (bind_Return _ _ _ _ _ _ Hrun) in Hok |- *.
  destruct ok; [|done]. unfold after, final at 1 2. simpl.
  erewrite bind_Return by (apply skip_each_nothing; by apply Hdone).
  unfold after, ret. simpl. by rewrite app_nil_r.
Qed.

(** C6: a run of the utility on a malformed GTID set ends with an error
    before anything is done with the subordinates: no connection value is
    parsed, no subordinate is fetched from or injected into, and the
    world is as before.  When the two required options are given, so
    that the run reaches the format check, it ends there with the GTID
    format error, having done nothing but the password check.  (An empty
    [--gtid-set] counts as not given, and a run without a required
    option ends at the guard of that option, before the format check.) *)
Theorem malformed_gtid_set_fails_first opt args w s :
  gtid_set opt = Some s ->
  parse_gtid_set s = None ->
  raised (outcome (script opt args w)) = true
  ∧ existsb touches_subordinates (trace (script opt args w)) = false
  ∧ final (script opt args w) = w
  ∧ (s ≠ "" -> truthy (subordinates opt) = true ->
     script opt args w
     = ([CheckPasswordSecurity], w, Raise (GtidFormatError s)))
  ∧ (s = "" ->
     script opt args w
     = ([CheckPasswordSecurity; Stderr (PARSE_ERR_OPTS_REQ "--gtid-set")], w,
        Raise (SystemExit 2)))
  ∧ (s ≠ "" -> truthy (subordinates opt) = false ->
     script opt args w
     = ([CheckPasswordSecurity; Stderr (PARSE_ERR_OPTS_REQ "--subordinates")], w,
        Raise (SystemExit 2))).
Proof.
  intros Hs Hparse. unfold script, main_block. rewrite Hs. simpl.
  rewrite bind_emit.
  assert (∀ A B msg (k : A -> M event World B),
            bind (parser_error msg) k w = ([Stderr msg], w, Raise (SystemExit 2)))
    as Herror.
  { intros A B msg k. unfold parser_error. by rewrite bind_bind, bind_emit. }
  case_bool_decide as Hempty; simpl.
  { rewrite Herror. by repeat split. }
  rewrite bind_ret.
  destruct (truthy (subordinates opt)); simpl.
  - rewrite bind_ret. unfold check_gtid_set_format. rewrite Hparse.
    rewrite bind_raise. by repeat split.
  - rewrite Herror. by repeat split.
Qed.
End SlaveTrxProperties.

(** ** The utility at the example subordinates *)

Section SlaveTrxExamples.
Import Gtid SlaveTrx.

(** The scenario of the specification: the request [10-12] on a
    subordinate that has executed [10-10] leaves [11-12] to skip. *)
Example to_skip_scenario :
  subtract {[ "u1" := [(10, 12)] ]} {[ "u1" := [(10, 10)] ]}
  = {[ "u1" := [(11, 12)] ]}.
Proof. vm_compute. reflexivity. Qed.

Example parse_scenario :
  spec_parse_gtid_set "u1:10-12,15" = Some {[ "u1" := [(10, 12); (15, 15)] ]}.
Proof. vm_compute. reflexivity. Qed.

Lemma valid_request_example : valid {[ source_uuid := [(10, 12)] ]}.
Proof. apply map_Forall_singleton. repeat constructor. simpl. lia. Qed.

Lemma valid_world_example : valid_world world.
Proof.
  unfold valid_world, world.
  apply map_Forall_insert_2; [|apply map_Forall_insert_2].
  - apply map_Forall_singleton. by repeat constructor.
  - apply map_Forall_empty.
  - apply map_Forall_empty.
Qed.

Lemma skip_computes_set_difference_witness :
  let gtids := source_uuid +:+ ":10-12" in
  let conns := ["rpl:pass@host2:3306"; "rpl:pass@host3:3306"] in
  let options : gmap string value := {[ "dry_run" := VBool false ]} in
  let first := skip_subordinates_trx spec_parse_gtid_set gtids conns options world in
  spec_parse_gtid_set gtids = Some {[ source_uuid := [(10, 12)] ]}
  ∧ outcome first = Return tt
  ∧ skip_subordinates_trx spec_parse_gtid_set gtids conns options (final first)
    = (flat_map (fun conn => [FetchExecuted conn; NothingToSkip conn]) conns,
       final first, Return tt).
Proof.
  intros gtids conns options first.
  assert (spec_parse_gtid_set gtids = Some {[ source_uuid := [(10, 12)] ]})
    as Hparse by (vm_compute; reflexivity).
  assert (outcome first = Return tt) as Hok by (vm_compute; reflexivity).
  split; [exact Hparse|]. split; [exact Hok|].
  destruct (skip_computes_set_difference spec_parse_gtid_set)
    as (_ & _ & _ & _ & Hrerun).
  apply (Hrerun gtids {[ source_uuid := [(10, 12)] ]} conns options options world).
  - exact Hparse.
  - exact valid_request_example.
  - exact valid_world_example.
  - reflexivity.
  - exact Hok.
Defined.

Lemma dry_run_changes_nothing_witness :
  let options : gmap string value := {[ "dry_run" := VBool true ]} in
  dry_run_of options = true
  ∧ final (skip_subordinates_trx spec_parse_gtid_set (source_uuid +:+ ":10-12")
             ["rpl:pass@host2:3306"; "rpl:pass@host3:3306"] options world)
    = world.
Proof.
  intros options. split; [reflexivity|].
  destruct (dry_run_changes_nothing spec_parse_gtid_set
              spec_parse_topology_connections (fun opt => opt)) as [Hengine _].
  apply (Hengine (source_uuid +:+ ":10-12")
           ["rpl:pass@host2:3306"; "rpl:pass@host3:3306"] options world).
  reflexivity.
Defined.

(** A reversed range. *)
Lemma malformed_gtid_set_fails_first_witness :
  let opt := example_opt (source_uuid +:+ ":12-10") false in
  gtid_set opt = Some (source_uuid +:+ ":12-10")
  ∧ spec_parse_gtid_set (source_uuid +:+ ":12-10") = None
  ∧ main_block spec_parse_gtid_set spec_parse_topology_connections
      (fun opt => "Option " +:+ opt +:+ " is required.") opt [] world
    = ([CheckPasswordSecurity], world,
       Raise (GtidFormatError (source_uuid +:+ ":12-10"))).
Proof.
  intros opt.
  assert (spec_parse_gtid_set (source_uuid +:+ ":12-10") = None) as Hparse
    by (vm_compute; reflexivity).
  split; [reflexivity|]. split; [exact Hparse|].
  destruct (malformed_gtid_set_fails_first spec_parse_gtid_set
              spec_parse_topology_connections
              (fun opt => "Option " +:+ opt +:+ " is required.")
              opt [] world (source_uuid +:+ ":12-10") eq_refl Hparse)
    as (_ & _ & _ & Hformat & _).
  apply Hformat; [discriminate|reflexivity].
Defined.

End SlaveTrxExamples.

(** * Further properties of the code *)

(** ** [setup_replication]: connection failures, the test step, the output *)

Section SetupReplicationMore.
Import SetupRpl.

Variable connect_servers :
  string -> string -> gmap string value -> result (list Server).
Variable Replication_new :
  Server -> Server -> gmap string value -> Replication.

Variables (main_vals subordinate_vals rpl_user : string).
Variable test_db : option string.

Let run (options : gmap string value) :=
  setup_replication connect_servers Replication_new
    main_vals subordinate_vals rpl_user options test_db tt.

Lemma filter_none {A} (P : A -> bool) (l : list A) :
  Forall (fun x => P x = false) l -> filter (fun x => P x = true) l = [].
Proof.
  induction 1 as [|x l Hx Hl IH]; [done|].
  rewrite filter_cons_False by congruence. done.
Qed.

Lemma preflight_no_configuration mv sv m s rpl options :
  Forall (fun e => is_configuration e = false) (preflight_trace mv sv m s rpl options).
Proof.
  unfold preflight_trace. rewrite !Forall_app, !Forall_fmap.
  assert (∀ l : list string,
            Forall (compose (fun e => is_configuration e = false) Print) l) as Hprints.
  { intros l. by apply Forall_true. }
  destruct (verbose options); repeat split; try apply Hprints;
    by repeat constructor.
Qed.

Lemma last_preflight mv sv m s rpl options :
  last (preflight_trace mv sv m s rpl options)
  = Some (Checked MainBinlog (check_main_binlog rpl)).
Proof. unfold preflight_trace. rewrite !app_assoc. by rewrite last_app_cons. Qed.

(** X1: when [connect_servers] raises, the run ends with that exception
    right after the connection attempt: no check is called, nothing is
    printed and nothing is configured. *)
Theorem setup_replication_connection_error options e :
  connect_servers main_vals subordinate_vals conn_options = Raise e ->
  run options = ([Connect main_vals subordinate_vals conn_options], tt, Raise e).
Proof.
  intros Hconn. unfold run.
  rewrite setup_replication_unresolved by (by rewrite Hconn).
  by rewrite Hconn.
Qed.

(** X2: when [connect_servers] returns fewer than two servers, the run
    ends with [IndexError] at [servers[0]] or [servers[1]], before the
    replication object is made: no check is called and nothing is
    printed. *)
Theorem setup_replication_too_few_servers options servers :
  connect_servers main_vals subordinate_vals conn_options = Return servers ->
  (length servers < 2)%nat ->
  run options
  = ([Connect main_vals subordinate_vals conn_options], tt, Raise IndexError).
Proof.
  intros Hconn Hlen. unfold run.
  rewrite setup_replication_unresolved; rewrite Hconn; [done|].
  right. apply lookup_ge_None. lia.
Qed.

(** X3: whatever the servers and the options, the last thing a run does
    is to print ["# ...done."] exactly when it returns without an
    exception. *)
Theorem setup_replication_done_iff_returns options :
  last (trace (run options)) = Some (Print "# ...done.")
  <-> outcome (run options) = Return tt.
Proof.
  unfold run.
  destruct (connect_servers main_vals subordinate_vals conn_options)
    as [servers|e] eqn:Hconn.
  2: { rewrite setup_replication_unresolved by (by rewrite Hconn).
       rewrite Hconn. by split. }
  destruct (servers !! 0%nat) as [main|] eqn:Hm.
  2: { rewrite setup_replication_unresolved by (rewrite Hconn; auto).
       rewrite Hconn. by split. }
  destruct (servers !! 1%nat) as [subordinate|] eqn:Hs.
  2: { rewrite setup_replication_unresolved by (rewrite Hconn; auto).
       rewrite Hconn. by split. }
  rewrite (setup_replication_resolved _ _ _ _ _ _ _ _ _ _ Hconn Hm Hs).
  rewrite trace_after, outcome_after.
  destruct (check_main_binlog _) as [|error0 errors] eqn:Hbinlog.
  - unfold configuration. destruct (setup _ rpl_user 10).
    + unfold trace, outcome. cbn [fst snd].
      rewrite !app_assoc, last_snoc. by split.
    + unfold trace, outcome. cbn [fst snd].
      rewrite last_app_cons. by split.
  - unfold trace, outcome. cbn [fst snd].
    rewrite app_nil_r, last_preflight. by split.
Qed.

(** X4: for a resolved pair, the replication test is run only after a
    binary-logging check without findings and a successful [setup], and
    only when [test_db] is a non-empty name: then [test(test_db, 10)] is
    called once; in every other case it is not called. *)
Theorem setup_replication_test_step options servers main subordinate :
  connect_servers main_vals subordinate_vals conn_options = Return servers ->
  servers !! 0%nat = Some main ->
  servers !! 1%nat = Some subordinate ->
  let rpl := Replication_new main subordinate (rpl_options_of options) in
  filter (fun e => is_test e = true) (trace (run options))
  = match check_main_binlog rpl, test_db with
    | [], Some db =>
        if setup rpl rpl_user 10 && negb (bool_decide (db = ""))
        then [Test db 10] else []
    | _, _ => []
    end.
Proof.
  intros Hconn Hm Hs rpl. unfold run.
  rewrite (setup_replication_resolved _ _ _ _ _ _ _ _ _ _ Hconn Hm Hs).
  fold rpl. rewrite trace_after, filter_app.
  rewrite (filter_none is_test).
  2: { eapply Forall_impl; [apply preflight_no_configuration|].
       intros e He. unfold is_configuration in He.
       by apply orb_false_elim in He as [_ ?]. }
  destruct (check_main_binlog rpl) as [|error0 errors]; [|done].
  unfold configuration.
  destruct (setup rpl rpl_user 10); [|by destruct test_db].
  destruct test_db as [db|]; [|done]. simpl.
  by case_bool_decide.
Qed.

(** X5: for a resolved pair and a verbosity that is not above 0, the
    lines printed are the findings of the server-id, UUID, InnoDB and
    storage-engine checks, in this order, then the line of the
    binary-logging check and, when that check has no finding, the line of
    the configuration step, followed by ["# ...done."] when [setup]
    succeeds. *)
Theorem setup_replication_quiet_output options servers main subordinate :
  connect_servers main_vals subordinate_vals conn_options = Return servers ->
  servers !! 0%nat = Some main ->
  servers !! 1%nat = Some subordinate ->
  gt_int (default (VInt 0) (options !! "verbosity")) 0 = false ->
  let rpl := Replication_new main subordinate (rpl_options_of options) in
  printed (trace (run options))
  = check_server_ids rpl ++ check_server_uuids rpl
    ++ check_innodb_compatibility rpl options
    ++ check_storage_engines rpl options
    ++ "# Checking for binary logging on main..."
       :: match check_main_binlog rpl with
          | [] => "# Setting up replication..."
                  :: (if setup rpl rpl_user 10 then ["# ...done."] else [])
          | _ => []
          end.
Proof.
  intros Hconn Hm Hs Hquiet rpl. unfold run.
  rewrite (setup_replication_resolved _ _ _ _ _ _ _ _ _ _ Hconn Hm Hs).
  fold rpl. rewrite trace_after, printed_app, printed_preflight.
  unfold preflight_printed, verbose. rewrite Hquiet. simpl.
  rewrite <- !app_assoc. do 4 f_equal. simpl. f_equal.
  destruct (check_main_binlog rpl) as [|error0 errors]; [|done].
  unfold configuration.
  destruct (setup rpl rpl_user 10); [|done].
  unfold trace. simpl. by destruct (truthy test_db).
Qed.
(** X13: for a resolved pair and a verbosity above 0, the run prints,
    besides the lines of the quiet mode, the server ids of the main and of
    the subordinate after the findings of the server-id check, their
    UUIDs after the findings of the UUID check, and a line before the
    InnoDB check and before the storage-engine check. *)
Theorem setup_replication_verbose_output options servers main subordinate :
  connect_servers main_vals subordinate_vals conn_options = Return servers ->
  servers !! 0%nat = Some main ->
  servers !! 1%nat = Some subordinate ->
  gt_int (default (VInt 0) (options !! "verbosity")) 0 = true ->
  let rpl := Replication_new main subordinate (rpl_options_of options) in
  printed (trace (run options))
  = check_server_ids rpl
    ++ ["# main id = " +:+ pretty (get_server_id main);
        "#  subordinate id = " +:+ pretty (get_server_id subordinate)]
    ++ check_server_uuids rpl
    ++ ["# main uuid = " +:+ get_server_uuid main;
        "#  subordinate uuid = " +:+ get_server_uuid subordinate;
        "# Checking InnoDB statistics for type and version conflicts."]
    ++ check_innodb_compatibility rpl options
    ++ ["# Checking storage engines..."]
    ++ check_storage_engines rpl options
    ++ "# Checking for binary logging on main..."
       :: match check_main_binlog rpl with
          | [] => "# Setting up replication..."
                  :: (if setup rpl rpl_user 10 then ["# ...done."] else [])
          | _ => []
          end.
Proof.
  intros Hconn Hm Hs Hverbose rpl. unfold run.
  rewrite (setup_replication_resolved _ _ _ _ _ _ _ _ _ _ Hconn Hm Hs).
  fold rpl. rewrite trace_after, printed_app, printed_preflight.
  unfold preflight_printed, verbose. rewrite Hverbose.
  rewrite <- !app_assoc. f_equal. simpl. do 3 f_equal. simpl. do 3 f_equal.
  simpl. f_equal. simpl. f_equal. simpl. f_equal.
  destruct (check_main_binlog rpl) as [|error0 errors]; [|done].
  unfold configuration.
  destruct (setup rpl rpl_user 10); [|done].
  unfold trace. simpl. by destruct (truthy test_db).
Qed.
End SetupReplicationMore.

(** ** [start_ms_replication]: when [stop_replication] is called *)

Section StartMsReplicationMore.
Import StartMs.

Variable ReplicationMultiSource_new :
  gmap string value -> list (gmap string value) -> gmap string value ->
  ReplicationMultiSource.
Variable subordinate_vals : gmap string value.
Variable mains_vals : list (gmap string value).

Lemma eq_str_true v s : eq_str v s = true <-> v = VStr s.
Proof.
  destruct v as [| | |t]; simpl; try by split.
  rewrite bool_decide_eq_true. split; congruence.
Qed.

Lemma call_run e r : call e r tt = ([e], tt, r).
Proof. by destruct r as [[]|x]. Qed.

(** X6: [stop_replication()] is called exactly when the daemon runs in
    the foreground (the ["daemon"] option is none of ["start"], ["stop"],
    ["restart"]) and the foreground start is interrupted from the
    keyboard; an interruption of the detached start, of [stop()] or of
    [restart()] is not followed by it. *)
Theorem stop_replication_iff_foreground_interrupt options :
  let rplms := ReplicationMultiSource_new subordinate_vals mains_vals options in
  let daemon := default VNone (options !! "daemon") in
  StopReplication
  ∈ trace (start_ms_replication ReplicationMultiSource_new
             subordinate_vals mains_vals options tt)
  <-> daemon ≠ VStr "start" ∧ daemon ≠ VStr "stop" ∧ daemon ≠ VStr "restart"
      ∧ start rplms (Some false) = Raise KeyboardInterrupt.
Proof.
  intros rplms daemon. unfold start_ms_replication. fold rplms daemon.
  destruct (eq_str daemon "start") eqn:H1.
  { apply eq_str_true in H1. rewrite call_run. unfold trace; simpl.
    rewrite list_elem_of_singleton. split; [done|]. by intros (? & _). }
  destruct (eq_str daemon "stop") eqn:H2.
  { apply eq_str_true in H2. rewrite call_run. unfold trace; simpl.
    rewrite list_elem_of_singleton. split; [done|]. by intros (_ & ? & _). }
  destruct (eq_str daemon "restart") eqn:H3.
  { apply eq_str_true in H3. rewrite call_run. unfold trace; simpl.
    rewrite list_elem_of_singleton. split; [done|]. by intros (_ & _ & ? & _). }
  assert (∀ s, eq_str daemon s = false -> daemon ≠ VStr s) as Hne.
  { intros s Hs Heq. apply eq_str_true in Heq. congruence. }
  unfold try_except. rewrite call_run.
  destruct (start rplms (Some false)) as [[]|x] eqn:Hstart.
  { unfold trace; simpl. rewrite list_elem_of_singleton.
    split; [done|]. by intros (_ & _ & _ & ?). }
  destruct x; simpl;
    try (unfold trace; simpl; rewrite list_elem_of_singleton;
         split; [done|]; by intros (_ & _ & _ & ?)).
  rewrite call_run. unfold trace; simpl. split; [|intros _; by do 2 constructor].
  intros _. auto.
Qed.
End StartMsReplicationMore.

(** ** The program of [scripts/mysqlslavetrx.py] over any library *)

Section TryExceptLaws.
Context {Ev St A : Type}.
Implicit Types (m : M Ev St A) (handles : exn -> bool) (h : exn -> M Ev St A).

Lemma try_except_Return m handles h s t s' a :
  m s = (t, s', Return a) -> try_except m handles h s = (t, s', Return a).
Proof. intros H. unfold try_except. by rewrite H. Qed.

Lemma try_except_caught m handles h s t s' e :
  m s = (t, s', Raise e) -> handles e = true ->
  try_except m handles h s = after t (h e s').
Proof.
  intros H He. unfold try_except. rewrite H, He.
  by destruct (h e s') as [[t' s''] r].
Qed.

Lemma try_except_passed m handles h s t s' e :
  m s = (t, s', Raise e) -> handles e = false ->
  try_except m handles h s = (t, s', Raise e).
Proof. intros H He. unfold try_except. by rewrite H, He. Qed.
End TryExceptLaws.

Section ProgramProperties.
Import SlaveTrx Program.

Variable check_python_version : M event World unit.
Variable check_connector_python : M event World bool.
Variable parse_args : M event World (Opt * list string).
Variable check_password_security : Opt -> list string -> M event World unit.
Variable check_gtid_set_format : string -> M event World unit.
Variable parse_topology_connections : Opt -> M event World (list string).
Variable skip_subordinates_trx :
  string -> list string -> gmap string value -> M event World unit.
Variable PARSE_ERR_OPTS_REQ : string -> string.

Let body := main_body check_password_security check_gtid_set_format
              parse_topology_connections skip_subordinates_trx
              PARSE_ERR_OPTS_REQ.
Let prog := program check_python_version check_connector_python parse_args
              check_password_security check_gtid_set_format
              parse_topology_connections skip_subordinates_trx
              PARSE_ERR_OPTS_REQ.

Lemma parser_error_run {A B} msg (k : A -> M event World B) w :
  bind (parser_error msg) k w = ([Stderr msg], w, Raise (SystemExit 2)).
Proof. unfold parser_error. by rewrite bind_bind, bind_emit. Qed.

Lemma report_and_exit_run {A} err w :
  @report_and_exit A err w
  = ([Stderr ("ERROR: " +:+ errmsg_of err +:+ newline)], w, Raise (SystemExit 1)).
Proof. unfold report_and_exit. by rewrite bind_emit. Qed.

(** The block up to the parsing of the connections, when the password
    check and the format check return and both options are given. *)
Lemma main_body_prefix opt args gtids w t1 w1 t2 w2 :
  check_password_security opt args w = (t1, w1, Return tt) ->
  gtid_set opt = Some gtids -> gtids ≠ "" ->
  truthy (subordinates opt) = true ->
  check_gtid_set_format gtids w1 = (t2, w2, Return tt) ->
  body opt args w
  = after (t1 ++ t2)
      (bind (try_except (parse_topology_connections (set_main_None opt))
               is_UtilRplError report_and_exit)
         (fun subordinates_val =>
            try_except
              (skip_subordinates_trx gtids subordinates_val (options_of opt))
              is_UtilError report_and_exit) w2).
Proof.
  intros Hcps Hgtids Hne Hsubs Hformat. unfold body, main_body.
  erewrite bind_Return by exact Hcps.
  rewrite Hgtids, Hsubs. simpl. rewrite bool_decide_eq_false_2 by done. simpl.
  rewrite !bind_ret. erewrite bind_Return by exact Hformat.
  by rewrite after_after.
Qed.

(** X7: without Connector/Python the program exits with status 1 right
    after the two checks at the top of the module: the command line is
    not parsed and nothing of the [__main__] block is run. *)
Theorem program_without_connector w t0 w0 t1 w1 :
  check_python_version w = (t0, w0, Return tt) ->
  check_connector_python w0 = (t1, w1, Return false) ->
  prog w = (t0 ++ t1, w1, Raise (SystemExit 1)).
Proof.
  intros Hversion Hconnector. unfold prog, program.
  erewrite bind_Return by exact Hversion.
  erewrite bind_Return by exact Hconnector. simpl.
  unfold raise, after, trace, final, outcome. simpl. by rewrite app_nil_r.
Qed.

(** X8: when [--gtid-set] is absent or empty, the block ends right after
    the password check with the parser error of the required option
    [--gtid-set] (exit status 2), also when [--subordinates] is missing
    too; the format check, the parsing of the connections and the skip
    are not run. *)
Theorem main_body_requires_gtid_set opt args w t1 w1 :
  check_password_security opt args w = (t1, w1, Return tt) ->
  truthy (gtid_set opt) = false ->
  body opt args w
  = (t1 ++ [Stderr (PARSE_ERR_OPTS_REQ "--gtid-set")], w1, Raise (SystemExit 2)).
Proof.
  intros Hcps Hgtids. unfold body, main_body.
  erewrite bind_Return by exact Hcps. rewrite Hgtids. simpl.
  by rewrite parser_error_run.
Qed.

(** X9: when [--gtid-set] is given and [--subordinates] is absent or
    empty, the block ends with the parser error of the required option
    [--subordinates] (exit status 2) before the GTID set is looked at:
    the format check, the parsing of the connections and the skip are
    not run. *)
Theorem main_body_requires_subordinates opt args w t1 w1 :
  check_password_security opt args w = (t1, w1, Return tt) ->
  truthy (gtid_set opt) = true ->
  truthy (subordinates opt) = false ->
  body opt args w
  = (t1 ++ [Stderr (PARSE_ERR_OPTS_REQ "--subordinates")], w1,
     Raise (SystemExit 2)).
Proof.
  intros Hcps Hgtids Hsubs. unfold body, main_body.
  erewrite bind_Return by exact Hcps. rewrite Hgtids, Hsubs. simpl.
  by rewrite bind_ret, parser_error_run.
Qed.

(** X10: an exception raised by [check_gtid_set_format] ends the block
    with that exception, whatever it is: the connections are not parsed
    and the skip is not run. *)
Theorem main_body_format_error opt args gtids w t1 w1 t2 w2 e :
  check_password_security opt args w = (t1, w1, Return tt) ->
  gtid_set opt = Some gtids -> gtids ≠ "" ->
  truthy (subordinates opt) = true ->
  check_gtid_set_format gtids w1 = (t2, w2, Raise e) ->
  body opt args w = (t1 ++ t2, w2, Raise e).
Proof.
  intros Hcps Hgtids Hne Hsubs Hformat. unfold body, main_body.
  erewrite bind_Return by exact Hcps.
  rewrite Hgtids, Hsubs. simpl. rewrite bool_decide_eq_false_2 by done. simpl.
  rewrite !bind_ret. erewrite bind_Raise by exact Hformat. done.
Qed.

(** X11: [parse_topology_connections] is called on [opt] with its [main]
    set to [None]; when it raises, the skip is not run: a [UtilRplError]
    is reported as ["ERROR: <errmsg>"] on the standard error and the
    program exits with status 1, and any other exception leaves the block
    as it is, with nothing written. *)
Theorem main_body_topology_error opt args gtids w t1 w1 t2 w2 t3 w3 e :
  check_password_security opt args w = (t1, w1, Return tt) ->
  gtid_set opt = Some gtids -> gtids ≠ "" ->
  truthy (subordinates opt) = true ->
  check_gtid_set_format gtids w1 = (t2, w2, Return tt) ->
  parse_topology_connections (set_main_None opt) w2 = (t3, w3, Raise e) ->
  body opt args w
  = if is_UtilRplError e then
      (t1 ++ t2 ++ t3 ++ [Stderr ("ERROR: " +:+ errmsg_of e +:+ newline)], w3,
       Raise (SystemExit 1))
    else (t1 ++ t2 ++ t3, w3, Raise e).
Proof.
  intros Hcps Hgtids Hne Hsubs Hformat Hparse.
  rewrite (main_body_prefix _ _ _ _ _ _ _ _ Hcps Hgtids Hne Hsubs Hformat).
  destruct (is_UtilRplError e) eqn:He.
  - erewrite bind_Raise.
    2: { erewrite try_except_caught by done. by rewrite report_and_exit_run. }
    unfold after, trace, final, outcome. simpl. by rewrite <- !app_assoc.
  - erewrite bind_Raise by (by eapply try_except_passed).
    unfold after, trace, final, outcome. simpl. by rewrite <- !app_assoc.
Qed.

(** X12: when the checks pass and the connections are parsed,
    [skip_subordinates_trx] is called once, with the GTID set as given,
    the parsed connections, and the options [verbosity] (0 when the
    command line has none) and [dry_run], and no other option.  The
    block ends as the call ends, except that an exception caught by
    [except UtilError], a [UtilError] or its subclass [UtilRplError], is
    reported as ["ERROR: <errmsg>"] on the standard error and turned
    into exit status 1. *)
Theorem main_body_skip_step
    opt args gtids w t1 w1 t2 w2 t3 w3 subordinates_val t4 w4 r :
  check_password_security opt args w = (t1, w1, Return tt) ->
  gtid_set opt = Some gtids -> gtids ≠ "" ->
  truthy (subordinates opt) = true ->
  check_gtid_set_format gtids w1 = (t2, w2, Return tt) ->
  parse_topology_connections (set_main_None opt) w2
  = (t3, w3, Return subordinates_val) ->
  skip_subordinates_trx gtids subordinates_val (options_of opt) w3 = (t4, w4, r) ->
  body opt args w
  = match r with
    | Raise e =>
        if is_UtilError e then
          (t1 ++ t2 ++ t3 ++ t4
           ++ [Stderr ("ERROR: " +:+ errmsg_of e +:+ newline)], w4,
           Raise (SystemExit 1))
        else (t1 ++ t2 ++ t3 ++ t4, w4, Raise e)
    | Return _ => (t1 ++ t2 ++ t3 ++ t4, w4, r)
    end
  ∧ options_of opt !! "verbosity" = Some (VInt (default 0 (verbosity opt)))
  ∧ options_of opt !! "dry_run" = Some (VBool (dry_run opt))
  ∧ ∀ key, key ≠ "verbosity" -> key ≠ "dry_run" -> options_of opt !! key = None.
Proof.
  intros Hcps Hgtids Hne Hsubs Hformat Hparse Hskip.
  split; [|split; [|split]].
  - rewrite (main_body_prefix _ _ _ _ _ _ _ _ Hcps Hgtids Hne Hsubs Hformat).
    erewrite bind_Return by (by eapply try_except_Return).
    destruct r as [[]|e].
    + erewrite try_except_Return by exact Hskip.
      unfold after, trace, final, outcome. simpl. by rewrite <- !app_assoc.
    + destruct (is_UtilError e) eqn:He.
      * erewrite try_except_caught by done. rewrite report_and_exit_run.
        unfold after, trace, final, outcome. simpl. by rewrite <- !app_assoc.
      * erewrite try_except_passed by done.
        unfold after, trace, final, outcome. simpl. by rewrite <- !app_assoc.
  - unfold options_of. by rewrite lookup_insert_eq.
  - unfold options_of. rewrite lookup_insert_ne by done.
    by rewrite lookup_insert_eq.
  - intros key H1 H2. unfold options_of.
    by rewrite !lookup_insert_ne, lookup_empty.
Qed.
End ProgramProperties.

(** ** The further properties at the examples *)

Section MoreExamples.
Import SetupRpl SlaveTrx Program.

(** The [__main__] block of the claims is the block above at the
    functions modelled from the specification. *)
Lemma main_block_is_main_body parse_gtid_set parse_topology_connections
    PARSE_ERR_OPTS_REQ opt args :
  main_block parse_gtid_set parse_topology_connections PARSE_ERR_OPTS_REQ opt args
  = main_body (fun _ _ => emit CheckPasswordSecurity)
      (SlaveTrx.check_gtid_set_format parse_gtid_set)
      (call_parse_topology_connections parse_topology_connections)
      (SlaveTrx.skip_subordinates_trx parse_gtid_set)
      PARSE_ERR_OPTS_REQ opt args.
Proof. reflexivity. Qed.

Lemma setup_replication_connection_error_witness :
  setup_replication (spec_connect_servers network) spec_Replication
    "root:pw@hostA:3306" "root:pw@hostZ:3306" "rpl:pw" ∅ None tt
  = ([Connect "root:pw@hostA:3306" "root:pw@hostZ:3306" conn_options], tt,
     Raise (UtilError "Cannot connect to server.")).
Proof.
  apply (setup_replication_connection_error (spec_connect_servers network)
           spec_Replication "root:pw@hostA:3306" "root:pw@hostZ:3306" "rpl:pw"
           None ∅).
  vm_compute. reflexivity.
Defined.

Lemma setup_replication_too_few_servers_witness :
  setup_replication one_server_connect spec_Replication
    "root:pw@hostA:3306" "root:pw@hostB:3306" "rpl:pw" ∅ None tt
  = ([Connect "root:pw@hostA:3306" "root:pw@hostB:3306" conn_options], tt,
     Raise IndexError).
Proof.
  apply (setup_replication_too_few_servers one_server_connect
           spec_Replication "root:pw@hostA:3306" "root:pw@hostB:3306" "rpl:pw"
           None ∅ [server_A]); [reflexivity|simpl; lia].
Defined.

Lemma setup_replication_test_step_witness :
  filter (fun e => is_test e = true)
    (trace (setup_replication (spec_connect_servers network) spec_Replication
              "root:pw@hostA:3306" "root:pw@hostD:3306" "rpl:pw" ∅
              (Some "test_db") tt))
  = [Test "test_db" 10].
Proof.
  apply (setup_replication_test_step (spec_connect_servers network)
           spec_Replication "root:pw@hostA:3306" "root:pw@hostD:3306" "rpl:pw"
           (Some "test_db") ∅ [server_A; server_D] server_A server_D);
    vm_compute; reflexivity.
Defined.

Lemma setup_replication_quiet_output_witness :
  printed (trace (setup_replication (spec_connect_servers network)
                    spec_Replication "root:pw@hostA:3306" "root:pw@hostD:3306"
                    "rpl:pw" ∅ None tt))
  = ["WARNING: InnoDB versions differ between main and subordinate.";
     "# Checking for binary logging on main...";
     "# Setting up replication...";
     "# ...done."].
Proof.
  apply (setup_replication_quiet_output (spec_connect_servers network)
           spec_Replication "root:pw@hostA:3306" "root:pw@hostD:3306" "rpl:pw"
           None ∅ [server_A; server_D] server_A server_D);
    vm_compute; reflexivity.
Defined.

Lemma setup_replication_verbose_output_witness :
  printed (trace (setup_replication (spec_connect_servers network)
                    spec_Replication "root:pw@hostA:3306" "root:pw@hostC:3306"
                    "rpl:pw" (<["verbosity" := VInt 1]> ∅) None tt))
  = ["# main id = 1";
     "#  subordinate id = 3";
     "# main uuid = ee2655ae-2e88-11e4-b7a3-606720440b68";
     "#  subordinate uuid = 5a1d03c2-2e8a-11e4-b7a8-606720440b68";
     "# Checking InnoDB statistics for type and version conflicts.";
     "WARNING: InnoDB versions differ between main and subordinate.";
     "# Checking storage engines...";
     "# Checking for binary logging on main...";
     "# Setting up replication..."].
Proof.
  apply (setup_replication_verbose_output (spec_connect_servers network)
           spec_Replication "root:pw@hostA:3306" "root:pw@hostC:3306" "rpl:pw"
           None (<["verbosity" := VInt 1]> ∅)
           [server_A; server_C] server_A server_C);
    vm_compute; reflexivity.
Defined.

Lemma program_without_connector_witness :
  program (ret tt) (ret false) (ret (empty_opt, []))
    password_check (SlaveTrx.check_gtid_set_format spec_parse_gtid_set)
    (call_parse_topology_connections spec_parse_topology_connections)
    (SlaveTrx.skip_subordinates_trx spec_parse_gtid_set) required nobody
  = ([], nobody, Raise (SystemExit 1)).
Proof.
  apply (program_without_connector (ret tt) (ret false) (ret (empty_opt, []))
           password_check (SlaveTrx.check_gtid_set_format spec_parse_gtid_set)
           (call_parse_topology_connections spec_parse_topology_connections)
           (SlaveTrx.skip_subordinates_trx spec_parse_gtid_set) required
           nobody [] nobody [] nobody); reflexivity.
Defined.

Lemma main_body_requires_gtid_set_witness :
  main_body password_check (SlaveTrx.check_gtid_set_format spec_parse_gtid_set)
    (call_parse_topology_connections spec_parse_topology_connections)
    (SlaveTrx.skip_subordinates_trx spec_parse_gtid_set) required
    empty_opt [] nobody
  = ([CheckPasswordSecurity; Stderr "Option --gtid-set is required."], nobody,
     Raise (SystemExit 2)).
Proof.
  apply (main_body_requires_gtid_set password_check
           (SlaveTrx.check_gtid_set_format spec_parse_gtid_set)
           (call_parse_topology_connections spec_parse_topology_connections)
           (SlaveTrx.skip_subordinates_trx spec_parse_gtid_set) required
           empty_opt [] nobody [CheckPasswordSecurity] nobody); reflexivity.
Defined.

Lemma main_body_requires_subordinates_witness :
  main_body password_check (SlaveTrx.check_gtid_set_format spec_parse_gtid_set)
    (call_parse_topology_connections spec_parse_topology_connections)
    (SlaveTrx.skip_subordinates_trx spec_parse_gtid_set) required
    alone_opt [] nobody
  = ([CheckPasswordSecurity; Stderr "Option --subordinates is required."], nobody,
     Raise (SystemExit 2)).
Proof.
  apply (main_body_requires_subordinates password_check
           (SlaveTrx.check_gtid_set_format spec_parse_gtid_set)
           (call_parse_topology_connections spec_parse_topology_connections)
           (SlaveTrx.skip_subordinates_trx spec_parse_gtid_set) required
           alone_opt [] nobody [CheckPasswordSecurity] nobody); reflexivity.
Defined.

Lemma main_body_format_error_witness :
  main_body password_check (SlaveTrx.check_gtid_set_format spec_parse_gtid_set)
    (call_parse_topology_connections spec_parse_topology_connections)
    (SlaveTrx.skip_subordinates_trx spec_parse_gtid_set) required
    (example_opt "u1:12-10" false) [] nobody
  = ([CheckPasswordSecurity], nobody, Raise (GtidFormatError "u1:12-10")).
Proof.
  apply (main_body_format_error password_check
           (SlaveTrx.check_gtid_set_format spec_parse_gtid_set)
           (call_parse_topology_connections spec_parse_topology_connections)
           (SlaveTrx.skip_subordinates_trx spec_parse_gtid_set) required
           (example_opt "u1:12-10" false) [] "u1:12-10" nobody
           [CheckPasswordSecurity] nobody [] nobody);
    first [discriminate | vm_compute; reflexivity].
Defined.

Lemma main_body_topology_error_witness :
  main_body password_check (SlaveTrx.check_gtid_set_format spec_parse_gtid_set)
    failing_parse_topology_connections
    (SlaveTrx.skip_subordinates_trx spec_parse_gtid_set) required
    unreachable_opt [] nobody
  = ([CheckPasswordSecurity;
      ParseTopologyConnections (set_main_None unreachable_opt);
      Stderr ("ERROR: Cannot parse the subordinates." +:+ newline)], nobody,
     Raise (SystemExit 1)).
Proof.
  apply (main_body_topology_error password_check
           (SlaveTrx.check_gtid_set_format spec_parse_gtid_set)
           failing_parse_topology_connections
           (SlaveTrx.skip_subordinates_trx spec_parse_gtid_set) required
           unreachable_opt [] "u1:10-12" nobody
           [CheckPasswordSecurity] nobody [] nobody
           [ParseTopologyConnections (set_main_None unreachable_opt)] nobody
           (UtilRplError "Cannot parse the subordinates."));
    first [discriminate | vm_compute; reflexivity].
Defined.

(** The subordinate named on the command line is not in the world: the
    skip engine ends with a [UtilError], reported before the exit. *)
Lemma main_body_skip_step_witness :
  main_body password_check (SlaveTrx.check_gtid_set_format spec_parse_gtid_set)
    (call_parse_topology_connections spec_parse_topology_connections)
    (SlaveTrx.skip_subordinates_trx spec_parse_gtid_set) required
    unreachable_opt [] nobody
  = ([CheckPasswordSecurity;
      ParseTopologyConnections (set_main_None unreachable_opt);
      ConnectFailed "rpl:pass@host9:3306";
      Stderr ("ERROR: Transactions were not skipped on all subordinates."
              +:+ newline)], nobody,
     Raise (SystemExit 1)).
Proof.
  assert (SlaveTrx.skip_subordinates_trx spec_parse_gtid_set "u1:10-12"
            ["rpl:pass@host9:3306"] (options_of unreachable_opt) nobody
          = ([ConnectFailed "rpl:pass@host9:3306"], nobody,
             Raise (UtilError "Transactions were not skipped on all subordinates.")))
    as Hskip by (vm_compute; reflexivity).
  assert (SlaveTrx.check_gtid_set_format spec_parse_gtid_set "u1:10-12" nobody
          = ([], nobody, Return tt)) as Hformat by (vm_compute; reflexivity).
  destruct (main_body_skip_step password_check
              (SlaveTrx.check_gtid_set_format spec_parse_gtid_set)
              (call_parse_topology_connections spec_parse_topology_connections)
              (SlaveTrx.skip_subordinates_trx spec_parse_gtid_set) required
              unreachable_opt [] "u1:10-12" nobody
              [CheckPasswordSecurity] nobody [] nobody
              [ParseTopologyConnections (set_main_None unreachable_opt)] nobody
              ["rpl:pass@host9:3306"]
              [ConnectFailed "rpl:pass@host9:3306"] nobody
              (Raise (UtilError "Transactions were not skipped on all subordinates."))
              eq_refl eq_refl ltac:(discriminate) eq_refl Hformat eq_refl Hskip)
    as [Hrun _].
  exact Hrun.
Defined.
(** A subordinate older than version 5.0.0 is refused at the connection. *)
Example connect_below_version_floor :
  spec_connect_servers network "root:pw@hostA:3306" "root:pw@hostE:3306"
    conn_options
  = Raise (UtilError "The server version is below the version required.").
Proof. vm_compute. reflexivity. Qed.

(** A [UtilRplError] of the skip is caught by [except UtilError] too. *)
Example main_body_skip_rpl_error :
  main_body password_check (SlaveTrx.check_gtid_set_format spec_parse_gtid_set)
    (call_parse_topology_connections spec_parse_topology_connections)
    failing_skip required unreachable_opt [] nobody
  = ([CheckPasswordSecurity;
      ParseTopologyConnections (set_main_None unreachable_opt);
      Stderr ("ERROR: The subordinates do not have GTIDs enabled." +:+ newline)],
     nobody, Raise (SystemExit 1)).
Proof. vm_compute. reflexivity. Qed.
End MoreExamples.
